(** * Registration store (src/contexts/RegistrationContext.tsx)

    A shallow embedding of [RegistrationProvider]: the React state
    ([registrations], [loading]), the Firestore collection it talks to,
    and the three asynchronous callbacks [fetchRegistrations],
    [registerForEvent] and [markAttendance], together with the derived
    views [userRegistrations], [allRegistrations] and [isUserRegistered].

    Asynchronous callbacks are modelled as computations in a small
    state / exception / event-log monad.  Every Firestore call may be
    rejected; whether it is rejected is read from a fault schedule that is
    part of the system state, so that a theorem quantified over all states
    covers every interleaving of database failures. *)

From stdpp Require Import gmap strings list fin_maps.


(** ** Data model *)

(** The identity handed out by [useAuth]. *)
Module User.
Record t := mk { id : string; role : string }.
End User.

(** [Registration] of [@/lib/types]; [checkedInAt] is the optional field. *)
Module Registration.
Record t := mk {
  id : string;
  userId : string;
  eventId : string;
  registrationDate : string;
  checkedIn : bool;
  checkedInAt : option string
}.
End Registration.

(** What [doc.data()] returns for a document of the collection.  The
    fields are those of a registration, except that the [id] field may be
    missing from the stored data: the source supplies [doc.id] for it
    before spreading the data over it. *)
Module DocumentData.
Record t := mk {
  id : option string;
  userId : string;
  eventId : string;
  registrationDate : string;
  checkedIn : bool;
  checkedInAt : option string
}.
End DocumentData.

(** The result of [useAuth()]: [user] and [loading: authLoading]. *)
Record Auth := mkAuth { user : option User.t; authLoading : bool }.

(** The two queries the store builds: the bare collection reference and
    [query(regsCollection, where('userId', '==', uid))]. *)
Inductive Query :=
| Collection
| WhereUserId (uid : string).

Inductive FirestoreError :=
| Unavailable
| NotFound
| InvalidArgument.

(** Observable effects, in the order in which they happen. *)
Inductive Event :=
| SetLoading (b : bool)
| SetRegistrations (rs : list Registration.t)
| GetDocs (q : Query) (ok : bool)
| SetDoc (key : string) (data : DocumentData.t) (ok : bool)
| UpdateDoc (key : string) (at_ : string) (ok : bool)
| ConsoleError (msg : string).

(** Whether character [c] occurs in [s]. *)
Fixpoint occurs (c : Ascii.ascii) (s : string) : bool :=
  match s with
  | EmptyString => false
  | String c' s' => bool_decide (c' = c) || occurs c s'
  end.

(** The path separator of Firestore. *)
Definition slash : Ascii.ascii := Ascii.Ascii true true true true false true false false.

(** The document ids of Firestore: not empty, and without a slash, which
    separates the segments of a path.  Only under such an id can the
    ['registrations'] collection hold a document, and only for such an id
    is [doc(db, 'registrations', id)] taken to yield a reference. *)
Definition validDocumentId (id : string) : bool :=
  negb (bool_decide (id = "")) && negb (occurs slash id).

(** The provider's two [useState] cells, the document store behind the
    ['registrations'] collection and the schedule of upcoming database
    faults: the n-th database call is rejected when the n-th entry is
    [true]; an exhausted schedule means that the remaining calls succeed. *)
Record Sys := mkSys {
  registrations : list Registration.t;
  loading : bool;
  store : gmap string DocumentData.t;
  faults : list bool
}.

(** The ['registrations'] collection, document id to data.  Firestore
    holds no document under an empty id or an id with a slash, so the
    collection is the part of the store that sits under valid ids. *)
Definition db (s : Sys) : gmap string DocumentData.t :=
  filter (λ kd, validDocumentId kd.1 = true) (store s).
Arguments db : simpl never.

(** [useState<Registration[]>([])], [useState(true)]. *)
Definition initial (d : gmap string DocumentData.t) (fs : list bool) : Sys :=
  mkSys [] true d fs.

(** ** The monad of callbacks *)

Inductive Completion (A : Type) :=
| Normal (a : A)
| Thrown (e : FirestoreError).
Arguments Normal {A} a.
Arguments Thrown {A} e.

Definition M (A : Type) : Type := Sys → Completion A * Sys * list Event.

#[global] Instance M_ret : MRet M := λ A a s, (Normal a, s, []).

#[global] Instance M_bind : MBind M := λ A B k m s,
  match m s with
  | (Normal a, s1, ev1) =>
      match k a s1 with
      | (c, s2, ev2) => (c, s2, ev1 ++ ev2)
      end
  | (Thrown e, s1, ev1) => (Thrown e, s1, ev1)
  end.

(** [try { body } catch (error) { handler }] *)
Definition try_catch {A} (body : M A) (handler : FirestoreError → M A) : M A :=
  λ s,
    match body s with
    | (Normal a, s1, ev1) => (Normal a, s1, ev1)
    | (Thrown e, s1, ev1) =>
        match handler e s1 with
        | (c, s2, ev2) => (c, s2, ev1 ++ ev2)
        end
    end.

(** [try { body } finally { fin }]: [fin] runs on every way out of
    [body], an early [return] included, and the completion of [body]
    stands unless [fin] throws itself. *)
Definition try_finally {A} (body : M A) (fin : M unit) : M A :=
  λ s,
    match body s with
    | (c, s1, ev1) =>
        match fin s1 with
        | (Normal _, s2, ev2) => (c, s2, ev1 ++ ev2)
        | (Thrown e, s2, ev2) => (Thrown e, s2, ev1 ++ ev2)
        end
    end.

Definition completion {A} (r : Completion A * Sys * list Event) : Completion A := r.1.1.
Definition final {A} (r : Completion A * Sys * list Event) : Sys := r.1.2.
Definition events {A} (r : Completion A * Sys * list Event) : list Event := r.2.

(** ** React state setters and the console *)

Definition setLoading (b : bool) : M unit := λ s,
  (Normal (), mkSys (registrations s) b (store s) (faults s), [SetLoading b]).

Definition setRegistrations (rs : list Registration.t) : M unit := λ s,
  (Normal (), mkSys rs (loading s) (store s) (faults s), [SetRegistrations rs]).

(** [setRegistrations(prev => f(prev))] *)
Definition updateRegistrations
    (f : list Registration.t → list Registration.t) : M unit := λ s,
  setRegistrations (f (registrations s)) s.

(** Reading the [registrations] captured by a callback.  Every callback
    that reads it lists it in its dependency array, so the captured value
    is the one of the latest render. *)
Definition readRegistrations : M (list Registration.t) := λ s,
  (Normal (registrations s), s, []).

Definition console_error (msg : string) : M unit := λ s,
  (Normal (), s, [ConsoleError msg]).

(** ** The Firestore primitives the store uses *)

Definition next_fault (s : Sys) : bool * Sys :=
  match faults s with
  | [] => (false, s)
  | b :: fs => (b, mkSys (registrations s) (loading s) (store s) fs)
  end.

Definition with_db (d : gmap string DocumentData.t) (s : Sys) : Sys :=
  mkSys (registrations s) (loading s) d (faults s).

(** Which documents a query selects. *)
Definition matches (q : Query) (kd : string * DocumentData.t) : Prop :=
  match q with
  | Collection => True
  | WhereUserId uid => DocumentData.userId kd.2 = uid
  end.

#[global] Instance matches_dec q kd : Decision (matches q kd).
Proof. destruct q; simpl; apply _. Defined.

Definition run_query (q : Query) (d : gmap string DocumentData.t)
  : list (string * DocumentData.t) :=
  filter (matches q) (map_to_list d).

(** [getDocs(q)]: the snapshot's [docs], as pairs of [doc.id] and
    [doc.data()]. *)
Definition getDocs (q : Query) : M (list (string * DocumentData.t)) := λ s,
  match next_fault s with
  | (true, s1) => (Thrown Unavailable, s1, [GetDocs q false])
  | (false, s1) => (Normal (run_query q (db s1)), s1, [GetDocs q true])
  end.

(** A reference to a document of the collection, as [doc] returns it. *)
Record DocumentReference := mkRef { refId : string }.

(** [doc(db, 'registrations', id)]: builds the reference on the client,
    without a database call, and throws when [id] is no document id (for
    the empty id and for an id such as [u1/e1] the path does not have the
    even number of segments a document reference needs). *)
Definition doc (id : string) : M DocumentReference := λ s,
  if validDocumentId id then (Normal (mkRef id), s, [])
  else (Thrown InvalidArgument, s, []).

(** [setDoc(ref, data)]: full upsert. *)
Definition setDoc (ref : DocumentReference) (data : DocumentData.t) : M unit := λ s,
  match next_fault s with
  | (true, s1) => (Thrown Unavailable, s1, [SetDoc (refId ref) data false])
  | (false, s1) =>
      (Normal (), with_db (<[refId ref := data]> (store s1)) s1,
       [SetDoc (refId ref) data true])
  end.

(** The merge [{ checkedIn: true, checkedInAt: at }] applied to stored data. *)
Definition checkIn (at_ : string) (d : DocumentData.t) : DocumentData.t :=
  DocumentData.mk (DocumentData.id d) (DocumentData.userId d)
    (DocumentData.eventId d) (DocumentData.registrationDate d)
    true (Some at_).

(** [updateDoc(ref, { checkedIn: true, checkedInAt: at })]: merges the
    two fields into an existing document and is rejected by Firestore when
    the document does not exist. *)
Definition updateDoc (ref : DocumentReference) (at_ : string) : M unit := λ s,
  match next_fault s with
  | (true, s1) => (Thrown Unavailable, s1, [UpdateDoc (refId ref) at_ false])
  | (false, s1) =>
      match db s1 !! refId ref with
      | Some d =>
          (Normal (), with_db (<[refId ref := checkIn at_ d]> (store s1)) s1,
           [UpdateDoc (refId ref) at_ true])
      | None => (Thrown NotFound, s1, [UpdateDoc (refId ref) at_ false])
      end
  end.

(** The messages passed to [console.error]. *)
Definition fetchError : string := "Error fetching registrations:".
Definition unauthenticated : string := "User must be logged in to register.".
Definition createError : string := "Error creating registration:".
Definition attendanceError : string := "Error marking attendance:".

(** ** The store *)

(** [doc => ({ id: doc.id, ...doc.data() })] *)
Definition fromSnapshot (kd : string * DocumentData.t) : Registration.t :=
  Registration.mk
    (default kd.1 (DocumentData.id kd.2))
    (DocumentData.userId kd.2) (DocumentData.eventId kd.2)
    (DocumentData.registrationDate kd.2)
    (DocumentData.checkedIn kd.2) (DocumentData.checkedInAt kd.2).

(** The object handed to [setDoc]: every field of [newRegistration]. *)
Definition toData (r : Registration.t) : DocumentData.t :=
  DocumentData.mk (Some (Registration.id r)) (Registration.userId r)
    (Registration.eventId r) (Registration.registrationDate r)
    (Registration.checkedIn r) (Registration.checkedInAt r).

(** [user?.role === r] *)
Definition hasRole (a : Auth) (r : string) : bool :=
  match user a with
  | Some u => bool_decide (User.role u = r)
  | None => false
  end.

(** The choice of [q] at the head of the [try] block; [None] stands for
    the third branch, which returns before any query is built. *)
Definition chooseQuery (a : Auth) : option Query :=
  match user a with
  | Some u =>
      if bool_decide (User.role u = "organizer") then Some Collection
      else if bool_decide (User.role u = "student") then Some (WhereUserId (User.id u))
      else None
  | None => None
  end.

(** The body of the [try] block of [fetchRegistrations]. *)
Definition fetchBody (a : Auth) : M unit :=
  match chooseQuery a with
  | Some q =>
      querySnapshot ← getDocs q;
      setRegistrations (fromSnapshot <$> querySnapshot)
  | None =>
      setRegistrations [];; setLoading false
  end.

Definition fetchRegistrations (a : Auth) : M unit :=
  if authLoading a then mret ()
  else
    setLoading true;;
    try_finally
      (try_catch (fetchBody a)
         (λ _, console_error fetchError))
      (setLoading false).

(** [`${user.id}-${eventId}`] *)
Definition registrationId (u : User.t) (eventId : string) : string :=
  User.id u +:+ "-" +:+ eventId.

(** [registrations.some(reg => reg.id === registrationId)] *)
Definition alreadyRegistered (key : string) (regs : list Registration.t) : bool :=
  existsb (λ reg, bool_decide (Registration.id reg = key)) regs.

(** [now] is the value of [new Date().toISOString()] in this call. *)
Definition newRegistration (u : User.t) (eventId now : string) : Registration.t :=
  Registration.mk (registrationId u eventId) (User.id u) eventId now false None.

Definition registerForEvent (a : Auth) (eventId now : string) : M unit :=
  match user a with
  | None => console_error unauthenticated
  | Some u =>
      regs ← readRegistrations;
      if alreadyRegistered (registrationId u eventId) regs then mret ()
      else
        try_catch
          (ref ← doc (registrationId u eventId);
           setDoc ref (toData (newRegistration u eventId now));;
           fetchRegistrations a)
          (λ _, console_error createError)
  end.

(** [reg.id === registrationId ? { ...reg, checkedIn: true, checkedInAt } : reg] *)
Definition patch (rid at_ : string) (reg : Registration.t) : Registration.t :=
  if bool_decide (Registration.id reg = rid) then
    Registration.mk (Registration.id reg) (Registration.userId reg)
      (Registration.eventId reg) (Registration.registrationDate reg)
      true (Some at_)
  else reg.

Definition markAttendance (a : Auth) (rid now : string) : M unit :=
  try_catch
    (regDocRef ← doc rid;
     updateDoc regDocRef now;;
     if hasRole a "organizer" then fetchRegistrations a
     else updateRegistrations (fmap (patch rid now)))
    (λ _, console_error attendanceError).

(** ** Derived views *)

Definition userRegistrations (a : Auth) (regs : list Registration.t)
  : list Registration.t :=
  match user a with
  | Some u => filter (λ reg, Registration.userId reg = User.id u) regs
  | None => []
  end.

Definition isUserRegistered (a : Auth) (regs : list Registration.t)
    (eventId : string) : bool :=
  match user a with
  | None => false
  | Some _ =>
      existsb (λ reg, bool_decide (Registration.eventId reg = eventId))
        (userRegistrations a regs)
  end.

Definition allRegistrations (a : Auth) (regs : list Registration.t)
  : list Registration.t :=
  if hasRole a "organizer" then regs else [].

(** ** Reading a run *)

(** Whether the next database call is rejected, and the state once the
    schedule has moved past it. *)
Definition rejected (s : Sys) : bool := (next_fault s).1.
Definition after_call (s : Sys) : Sys := (next_fault s).2.

(** The state right after an accepted write of [data] under [key]. *)
Definition written (key : string) (data : DocumentData.t) (s : Sys) : Sys :=
  with_db (<[key := data]> (store s)) (after_call s).


Definition isDbCall (e : Event) : bool :=
  match e with
  | GetDocs _ _ | SetDoc _ _ _ | UpdateDoc _ _ _ => true
  | _ => false
  end.

(** The database calls among the events, in order. *)
Definition dbCalls (evs : list Event) : list Event := List.filter isDbCall evs.

(** A database call that was rejected. *)
Definition failed (e : Event) : bool :=
  match e with
  | GetDocs _ ok | SetDoc _ _ ok | UpdateDoc _ _ ok => negb ok
  | _ => false
  end.

(** ** Invariants of the store *)

(** A property of [registrations] paired with a property of the
    collection. *)
Definition holds (WS : list Registration.t → Prop)
    (DB : gmap string DocumentData.t → Prop) (s : Sys) : Prop :=
  WS (registrations s) ∧ DB (db s).

(** One completed store operation, under any identity and arguments. *)
Inductive step : Sys → Sys → Prop :=
| step_fetch a s :
    step s (final (fetchRegistrations a s))
| step_register a eventId now s :
    step s (final (registerForEvent a eventId now s))
| step_mark a rid now s :
    step s (final (markAttendance a rid now s)).

Definition consistent (reg : Registration.t) : Prop :=
  Registration.checkedIn reg = false ↔ Registration.checkedInAt reg = None.

Definition consistentData (d : DocumentData.t) : Prop :=
  DocumentData.checkedIn d = false ↔ DocumentData.checkedInAt d = None.

(** Every record of [registrations] and every document of the collection
    has [checkedIn = false] exactly when [checkedInAt] is absent. *)
Definition Consistent : Sys → Prop :=
  holds (Forall consistent) (map_Forall (λ _, consistentData)).




(** ** Identities and data of the specification's scenarios *)

Definition student_u1 : Auth := mkAuth (Some (User.mk "u1" "student")) false.
Definition organizer_org1 : Auth := mkAuth (Some (User.mk "org1" "organizer")) false.
Definition anonymous : Auth := mkAuth None false.
Definition pending : Auth := mkAuth None true.

Definition reg_u1_e1 : Registration.t :=
  Registration.mk "u1-e1" "u1" "e1" "t0" false None.
Definition reg_u2_e1 : Registration.t :=
  Registration.mk "u2-e1" "u2" "e1" "t0" true (Some "t5").

(** A small collection: one registration of [u1] and one of [u2], the
    second already checked in. *)
Definition sample_db : gmap string DocumentData.t :=
  <["u1-e1" := toData reg_u1_e1]> (<["u2-e1" := toData reg_u2_e1]> ∅).

(** Closes [e ∉ [e1; ...; en]] when [e] differs from every [ei] by its
    constructor or arguments. *)
Ltac not_in_log :=
  let Hin := fresh "Hin" in
  intros Hin;
  repeat (apply elem_of_cons in Hin as [Hin|Hin]; [discriminate Hin|]);
  by apply elem_of_nil in Hin.

(** ** The mount effect and the role-scoped snapshot *)

(** The [useEffect] that starts the first fetch:
    [if (!authLoading) { fetchRegistrations(); }]. *)
Definition initialFetch (a : Auth) : M unit :=
  if negb (authLoading a) then fetchRegistrations a else mret ().

(** What a read by identity [a] returns from collection [d]; no query is
    built for an identity that is neither organizer nor student. *)
Definition snapshotOf (a : Auth) (d : gmap string DocumentData.t)
  : list Registration.t :=
  match chooseQuery a with
  | Some q => fromSnapshot <$> run_query q d
  | None => []
  end.



(** * The create-event page (src/app/create-event/page.tsx) *)

Module CreateEvent.

(** ** Strings and the time pattern *)

(** A JavaScript string, as its sequence of UTF-16 code units. *)
Definition text : Type := list N.

(** The code units of an ASCII literal. *)
Fixpoint lit (s : string) : text :=
  match s with
  | EmptyString => []
  | String c s' => Ascii.N_of_ascii c :: lit s'
  end.

(** The code unit of a one-character literal. *)
Definition code (s : string) : N :=
  match s with
  | EmptyString => 0%N
  | String c _ => Ascii.N_of_ascii c
  end.

(** The code unit of the double quote. *)
Definition quote : N := 34%N.

(** The regular expressions that occur in the schema: character classes
    [[lo-hi]] (a literal character is the class [[c-c]]), sequence and
    alternation; [Empty] matches nothing and arises from derivatives. *)
Inductive regex :=
| Empty
| Eps
| Range (lo hi : N)
| Seq (r1 r2 : regex)
| Alt (r1 r2 : regex).

(** [r?] *)
Definition Opt (r : regex) : regex := Alt r Eps.
Definition Char (s : string) : regex := Range (code s) (code s).
Definition Class (lo hi : string) : regex := Range (code lo) (code hi).

Fixpoint nullable (r : regex) : bool :=
  match r with
  | Empty => false
  | Eps => true
  | Range _ _ => false
  | Seq r1 r2 => nullable r1 && nullable r2
  | Alt r1 r2 => nullable r1 || nullable r2
  end.

Fixpoint deriv (c : N) (r : regex) : regex :=
  match r with
  | Empty => Empty
  | Eps => Empty
  | Range lo hi => if (lo <=? c)%N && (c <=? hi)%N then Eps else Empty
  | Seq r1 r2 =>
      if nullable r1 then Alt (Seq (deriv c r1) r2) (deriv c r2)
      else Seq (deriv c r1) r2
  | Alt r1 r2 => Alt (deriv c r1) (deriv c r2)
  end.

(** [/^r$/.test(s)]: whether the whole of [s] matches [r]. *)
Fixpoint test (r : regex) (s : text) : bool :=
  match s with
  | [] => nullable r
  | c :: s' => test (deriv c r) s'
  end.

(** The strings a pattern denotes. *)
Inductive Matches : regex → text → Prop :=
| MEps : Matches Eps []
| MRange lo hi c : (lo ≤ c)%N → (c ≤ hi)%N → Matches (Range lo hi) [c]
| MSeq r1 r2 s1 s2 : Matches r1 s1 → Matches r2 s2 → Matches (Seq r1 r2) (s1 ++ s2)
| MAltL r1 r2 s : Matches r1 s → Matches (Alt r1 r2) s
| MAltR r1 r2 s : Matches r2 s → Matches (Alt r1 r2) s.

(** [/^([0-1]?[0-9]|2[0-3]):[0-5][0-9]$/] *)
Definition timeRegex : regex :=
  Seq (Alt (Seq (Opt (Class "0" "1")) (Class "0" "9"))
           (Seq (Char "2") (Class "0" "3")))
      (Seq (Char ":") (Seq (Class "0" "5") (Class "0" "9"))).

(** The decimal digit [d] and the two-digit rendering of [n]. *)
Definition digit (d : nat) : N := (48 + N.of_nat d)%N.
Definition two (n : nat) : text := [digit (n / 10); digit (n mod 10)].

(** The clock times [H:MM] and [HH:MM], hour below 24 and minute below 60. *)
Definition isClockTime (s : text) : Prop :=
  ∃ h m : nat, h < 24 ∧ m < 60 ∧
    (s = two h ++ code ":" :: two m ∨
     (h < 10 ∧ s = digit h :: code ":" :: two m)).

(** ** The form schema *)

Record FormValues := mkForm {
  title : text;
  description : text;
  date : text;
  time : text;
  endTime : text;
  location : text;
  category : text
}.

(** [defaultValues] of [useForm]. *)
Definition defaultValues : FormValues := mkForm [] [] [] [] [] [] [].

Inductive Field := Title | Description | Date | Time | EndTime | Location | Category.

Definition allFields : list Field :=
  [Title; Description; Date; Time; EndTime; Location; Category].

(** [z.string().min(n, msg)] *)
Definition minLength (n : nat) (msg : string) (v : text) : option string :=
  if length v <? n then Some msg else None.

(** [z.string().regex(r, msg)] *)
Definition matchesRegex (r : regex) (msg : string) (v : text) : option string :=
  if test r v then None else Some msg.

(** [z.string().refine(p, { message: msg })] *)
Definition refine (p : text → bool) (msg : string) (v : text) : option string :=
  if p v then None else Some msg.

(** The issue [formSchema] raises on a field, if any.  [dateParses]
    stands for [val => !isNaN(Date.parse(val))]. *)
Definition fieldIssue (dateParses : text → bool) (v : FormValues) (f : Field)
  : option string :=
  match f with
  | Title => minLength 3 "Title must be at least 3 characters." (title v)
  | Description =>
      minLength 10 "Description must be at least 10 characters." (description v)
  | Date => refine dateParses "Invalid date" (date v)
  | Time => matchesRegex timeRegex "Invalid time format (HH:MM)" (time v)
  | EndTime => matchesRegex timeRegex "Invalid time format (HH:MM)" (endTime v)
  | Location => minLength 3 "Location is required." (location v)
  | Category => minLength 3 "Category is required." (category v)
  end.

(** Whether [formSchema] accepts the values: no field raises an issue. *)
Definition valid (dateParses : text → bool) (v : FormValues) : bool :=
  forallb (λ f, bool_decide (fieldIssue dateParses v f = None)) allFields.

(** ** Page state and effects *)

Record Banner := mkBanner { url : string; generatedAt : string; prompt : string }.

(** [{ ...values, ...(eventBanner && { banner: eventBanner }) }] *)
Record EventData := mkEventData { values : FormValues; banner : option Banner }.

(** The page's [useState] cells and the current values of the form. *)
Record Page := mkPage {
  isSubmitting : bool;
  eventBanner : option Banner;
  hasRedirected : bool;
  form : FormValues
}.

(** [useState(false)], [useState(null)], [useState(false)], [defaultValues]. *)
Definition mounted : Page := mkPage false None false defaultValues.

Inductive PageEvent :=
| SetIsSubmitting (b : bool)
| SetHasRedirected (b : bool)
| SetEventBanner (b : option Banner)
| Toast (destructive : bool) (heading : string) (body : text)
| RouterPush (path : string)
| AddEvent (data : EventData) (ok : bool)
| FormReset
| LogError (msg : string).

(** The access guard: the first [useEffect] of the page. *)
Definition guardEffect (a : Auth) (p : Page) : Page * list PageEvent :=
  if authLoading a || hasRedirected p then (p, [])
  else
    match user a with
    | None =>
        (mkPage (isSubmitting p) (eventBanner p) true (form p),
         [SetHasRedirected true;
          Toast true "Authentication Required" (lit "Please log in to create events.");
          RouterPush "/login"])
    | Some u =>
        if negb (bool_decide (User.role u = "organizer")) then
          (mkPage (isSubmitting p) (eventBanner p) true (form p),
           [SetHasRedirected true;
            Toast true "Organizer Access Required"
              (lit "Only organizers can create events. Please contact an administrator if you need organizer access.");
            RouterPush "/"])
        else (p, [])
    end.

(** What the component returns. *)
Inductive View :=
| Skeleton
| AuthenticationRequired
| OrganizerAccessRequired (role : string)
| Redirecting
| CreateForm (submitDisabled : bool).

Definition render (a : Auth) (p : Page) : View :=
  if authLoading a then Skeleton
  else
    match user a with
    | None =>
        if negb (hasRedirected p) then AuthenticationRequired
        else Redirecting
    | Some u =>
        if negb (bool_decide (User.role u = "organizer")) && negb (hasRedirected p)
        then OrganizerAccessRequired (User.role u)
        else if hasRedirected p then Redirecting
        else CreateForm (isSubmitting p)
    end.

(** [onSubmit(values)]; [accepted] tells whether [addEvent] resolves or
    rejects. *)
Definition onSubmit (accepted : bool) (v : FormValues) (p : Page)
  : Page * list PageEvent :=
  let eventData := mkEventData v (eventBanner p) in
  if accepted then
    (mkPage false None (hasRedirected p) defaultValues,
     [SetIsSubmitting true;
      AddEvent eventData true;
      Toast false "Event Created!"
        (quote :: title v ++ quote :: lit " has been successfully created.");
      FormReset;
      SetEventBanner None;
      RouterPush "/";
      SetIsSubmitting false])
  else
    (mkPage false (eventBanner p) (hasRedirected p) (form p),
     [SetIsSubmitting true;
      AddEvent eventData false;
      LogError "Error creating event:";
      Toast true "Error" (lit "Failed to create event. Please try again.");
      SetIsSubmitting false]).

(** [form.handleSubmit(onSubmit)]: the resolver validates the current
    values against [formSchema]; [onSubmit] is called with them only when
    they pass. *)
Definition handleSubmit (dateParses : text → bool) (accepted : bool) (p : Page)
  : Page * list PageEvent :=
  if valid dateParses (form p) then onSubmit accepted (form p) p
  else (p, []).

(** The access guard run after each of a sequence of renders. *)
Fixpoint guardEffects (renders : list Auth) (p : Page) : Page * list PageEvent :=
  match renders with
  | [] => (p, [])
  | a :: rest =>
      let '(p1, ev1) := guardEffect a p in
      let '(p2, ev2) := guardEffects rest p1 in
      (p2, ev1 ++ ev2)
  end.

Definition isPush (e : PageEvent) : bool :=
  match e with
  | RouterPush _ => true
  | _ => false
  end.

(** The values with [time] and [endTime] exchanged. *)
Definition swapTimes (v : FormValues) : FormValues :=
  mkForm (title v) (description v) (date v) (endTime v) (time v)
    (location v) (category v).

Definition isAddEvent (e : PageEvent) : bool :=
  match e with
  | AddEvent _ _ => true
  | _ => false
  end.

End CreateEvent.

(** * Properties *)

(** ** The collection inside the store *)

Lemma db_mkSys regs l m fs :
  db (mkSys regs l m fs) = filter (λ kd, validDocumentId kd.1 = true) m.
Proof. done. Qed.

Lemma db_lookup_Some s k d :
  db s !! k = Some d ↔ store s !! k = Some d ∧ validDocumentId k = true.
Proof. unfold db. by rewrite map_lookup_filter_Some. Qed.

Lemma db_lookup_valid s k d : db s !! k = Some d → validDocumentId k = true.
Proof. intros H. by apply db_lookup_Some in H as [_ ?]. Qed.


Lemma db_insert regs l fs k v m :
  validDocumentId k = true →
  db (mkSys regs l (<[k := v]> m) fs) = <[k := v]> (db (mkSys regs l m fs)).
Proof. intros Hk. rewrite !db_mkSys. by apply map_filter_insert_True. Qed.

(** ** How one database call is scheduled *)

Lemma after_call_fields s :
  registrations (after_call s) = registrations s ∧
  loading (after_call s) = loading s ∧
  db (after_call s) = db s.
Proof. unfold after_call, next_fault. by destruct (faults s). Qed.

Lemma after_call_store s : store (after_call s) = store s.
Proof. unfold after_call, next_fault. by destruct (faults s). Qed.

Lemma next_fault_eta s : next_fault s = (rejected s, after_call s).
Proof. unfold rejected, after_call. by destruct (next_fault s). Qed.

Lemma no_faults s :
  faults s = [] → rejected s = false ∧ after_call s = s.
Proof. unfold rejected, after_call, next_fault. by intros ->. Qed.

Lemma written_fields key data s :
  validDocumentId key = true →
  registrations (written key data s) = registrations s ∧
  loading (written key data s) = loading s ∧
  db (written key data s) = <[key := data]> (db s).
Proof.
  intros Hk. unfold written, with_db.
  destruct (after_call_fields s) as (Hregs & Hload & _).
  split; [done|]. split; [done|].
  rewrite (db_insert _ _ _ key data (store s) Hk). by destruct s.
Qed.

Lemma written_no_faults key data s :
  faults s = [] → rejected (written key data s) = false ∧ faults (written key data s) = [].
Proof.
  intros Hf. destruct (no_faults s Hf) as [_ Hac].
  unfold written, with_db, rejected, next_fault. simpl. by rewrite Hac, Hf.
Qed.

Lemma run_query_collection d : run_query Collection d = map_to_list d.
Proof.
  unfold run_query. induction (map_to_list d) as [|x l IH]; [done|].
  rewrite filter_cons_True by done. by rewrite IH.
Qed.

(** ** Which query is chosen *)

Lemma chooseQuery_organizer a :
  hasRole a "organizer" = true → chooseQuery a = Some Collection.
Proof.
  unfold hasRole, chooseQuery. destruct (user a) as [u|]; [|done].
  by intros ->.
Qed.

Lemma chooseQuery_student a u :
  user a = Some u → User.role u = "student" →
  chooseQuery a = Some (WhereUserId (User.id u)).
Proof. unfold chooseQuery. by intros -> ->. Qed.

Lemma chooseQuery_other a :
  hasRole a "organizer" = false → hasRole a "student" = false →
  chooseQuery a = None.
Proof.
  unfold hasRole, chooseQuery. destruct (user a) as [u|]; [|done].
  by intros -> ->.
Qed.

Lemma chooseQuery_scope a u q :
  user a = Some u → chooseQuery a = Some q →
  q = Collection ∨ q = WhereUserId (User.id u).
Proof.
  unfold chooseQuery. intros ->.
  repeat case_bool_decide; naive_solver.
Qed.

(** ** The four ways through [fetchRegistrations] *)

Lemma fetch_pending a s :
  authLoading a = true → fetchRegistrations a s = (Normal (), s, []).
Proof. intros H. unfold fetchRegistrations. by rewrite H. Qed.

Lemma fetch_no_query a s :
  authLoading a = false → chooseQuery a = None →
  fetchRegistrations a s =
    (Normal (), mkSys [] false (store s) (faults s),
     [SetLoading true; SetRegistrations []; SetLoading false; SetLoading false]).
Proof.
  intros Hl Hq. unfold fetchRegistrations, fetchBody. rewrite Hl, Hq.
  reflexivity.
Qed.

Lemma fetch_success a s q :
  authLoading a = false → chooseQuery a = Some q → rejected s = false →
  fetchRegistrations a s =
    (Normal (),
     mkSys (fromSnapshot <$> run_query q (db s)) false (store s) (faults (after_call s)),
     [SetLoading true; GetDocs q true;
      SetRegistrations (fromSnapshot <$> run_query q (db s)); SetLoading false]).
Proof.
  intros Hl Hq Hr. unfold fetchRegistrations, fetchBody. rewrite Hl, Hq.
  destruct s as [rs l d [|[] fs]]; cbv in Hr; try discriminate; reflexivity.
Qed.

Lemma fetch_failure a s q :
  authLoading a = false → chooseQuery a = Some q → rejected s = true →
  fetchRegistrations a s =
    (Normal (),
     mkSys (registrations s) false (store s) (faults (after_call s)),
     [SetLoading true; GetDocs q false; ConsoleError fetchError; SetLoading false]).
Proof.
  intros Hl Hq Hr. unfold fetchRegistrations, fetchBody. rewrite Hl, Hq.
  destruct s as [rs l d [|[] fs]]; cbv in Hr; try discriminate; reflexivity.
Qed.

(** Splits on the four ways through [fetchRegistrations a s] and rewrites
    the call with the matching equation. *)
Ltac fetch_cases a s :=
  let Hl := fresh "Hl" in
  let Hq := fresh "Hq" in
  let Hr := fresh "Hr" in
  let q := fresh "q" in
  destruct (authLoading a) eqn:Hl;
  [ rewrite (fetch_pending a s Hl)
  | destruct (chooseQuery a) as [q|] eqn:Hq;
    [ destruct (rejected s) eqn:Hr;
      [ rewrite (fetch_failure a s q Hl Hq Hr)
      | rewrite (fetch_success a s q Hl Hq Hr) ]
    | rewrite (fetch_no_query a s Hl Hq) ] ].

(** [fetchRegistrations] catches what it throws. *)
Lemma fetch_total a s :
  ∃ s' evs, fetchRegistrations a s = (Normal (), s', evs).
Proof. fetch_cases a s; eauto. Qed.

(** A rejected read leaves [registrations] alone. *)
Lemma fetch_failed_keeps a s :
  let r := fetchRegistrations a s in
  existsb failed (events r) = true → registrations (final r) = registrations s.
Proof. cbv zeta. fetch_cases a s; done. Qed.

(** A fetch never writes to the collection. *)
Lemma fetch_db a s : db (final (fetchRegistrations a s)) = db s.
Proof. fetch_cases a s; done. Qed.

Lemma fetch_faults_nil a s :
  faults s = [] → faults (final (fetchRegistrations a s)) = [].
Proof.
  intros Hf. destruct (no_faults s Hf) as [_ Hac].
  fetch_cases a s; simpl; by rewrite ?Hac.
Qed.

(** With the identity resolved and a query chosen, the read is the only
    database call, and its outcome decides what [registrations] holds. *)
Lemma fetch_query_cases a s q :
  authLoading a = false → chooseQuery a = Some q →
  let r := fetchRegistrations a s in
  completion r = Normal () ∧
  dbCalls (events r) = [GetDocs q (negb (rejected s))] ∧
  registrations (final r) =
    (if rejected s then registrations s else fromSnapshot <$> run_query q (db s)) ∧
  loading (final r) = false ∧ db (final r) = db s.
Proof.
  intros Hl Hq r. subst r. destruct (rejected s) eqn:Hr.
  - by rewrite (fetch_failure a s q).
  - by rewrite (fetch_success a s q).
Qed.

(** ** The ways through [registerForEvent] and [markAttendance] *)

Lemma register_no_user a eventId now s :
  user a = None →
  registerForEvent a eventId now s = (Normal (), s, [ConsoleError unauthenticated]).
Proof. intros Hu. unfold registerForEvent. by rewrite Hu. Qed.

Lemma register_duplicate a u eventId now s :
  user a = Some u →
  alreadyRegistered (registrationId u eventId) (registrations s) = true →
  registerForEvent a eventId now s = (Normal (), s, []).
Proof.
  intros Hu Hdup. unfold registerForEvent. rewrite Hu.
  unfold mbind, M_bind, readRegistrations. by rewrite Hdup.
Qed.

(** A key that is no document id: [doc] throws inside the [try], nothing
    is sent to the database. *)
Lemma register_invalid_key a u eventId now s :
  user a = Some u →
  alreadyRegistered (registrationId u eventId) (registrations s) = false →
  validDocumentId (registrationId u eventId) = false →
  registerForEvent a eventId now s = (Normal (), s, [ConsoleError createError]).
Proof.
  intros Hu Hdup Hk. unfold registerForEvent. rewrite Hu.
  unfold mbind, M_bind, readRegistrations. rewrite Hdup.
  unfold try_catch, doc. by rewrite Hk.
Qed.

Lemma register_write_rejected a u eventId now s :
  user a = Some u →
  alreadyRegistered (registrationId u eventId) (registrations s) = false →
  validDocumentId (registrationId u eventId) = true →
  rejected s = true →
  registerForEvent a eventId now s =
    (Normal (), after_call s,
     [SetDoc (registrationId u eventId) (toData (newRegistration u eventId now)) false;
      ConsoleError createError]).
Proof.
  intros Hu Hdup Hk Hr. unfold registerForEvent. rewrite Hu.
  unfold mbind, M_bind, readRegistrations. rewrite Hdup.
  unfold try_catch, doc, setDoc. rewrite Hk. cbn [refId].
  by rewrite next_fault_eta, Hr.
Qed.

Lemma register_write_accepted a u eventId now s :
  user a = Some u →
  alreadyRegistered (registrationId u eventId) (registrations s) = false →
  validDocumentId (registrationId u eventId) = true →
  rejected s = false →
  let key := registrationId u eventId in
  let data := toData (newRegistration u eventId now) in
  let refresh := fetchRegistrations a (written key data s) in
  registerForEvent a eventId now s =
    (Normal (), final refresh, SetDoc key data true :: events refresh).
Proof.
  intros Hu Hdup Hk Hr. cbv zeta. unfold registerForEvent. rewrite Hu.
  unfold mbind, M_bind, readRegistrations. rewrite Hdup.
  unfold try_catch, doc, setDoc. rewrite Hk. cbn [refId].
  rewrite next_fault_eta, Hr.
  unfold written. rewrite after_call_store.
  destruct (fetch_total a (with_db
    (<[registrationId u eventId := toData (newRegistration u eventId now)]> (store s))
    (after_call s))) as (s' & evs & E).
  by rewrite E.
Qed.


(** An id that is no document id: [doc] throws inside the [try], nothing
    is sent to the database. *)
Lemma mark_invalid_id a rid now s :
  validDocumentId rid = false →
  markAttendance a rid now s = (Normal (), s, [ConsoleError attendanceError]).
Proof.
  intros Hk. unfold markAttendance, try_catch, mbind, M_bind, doc.
  by rewrite Hk.
Qed.

Lemma mark_update_rejected a rid now s :
  validDocumentId rid = true →
  rejected s = true ∨ db s !! rid = None →
  markAttendance a rid now s =
    (Normal (), after_call s, [UpdateDoc rid now false; ConsoleError attendanceError]).
Proof.
  intros Hk Hr. unfold markAttendance, try_catch, mbind, M_bind, doc, updateDoc.
  rewrite Hk. cbn [refId]. rewrite next_fault_eta.
  destruct (after_call_fields s) as (_ & _ & Hdb). rewrite Hdb.
  destruct (rejected s); [done|].
  destruct Hr as [?| ->]; done.
Qed.

(** Whenever the update does not go through (invalid id, fault, missing
    document), the run ends normally in the state before the call or in
    that state with the fault schedule moved on. *)
Lemma mark_not_updated a rid now s :
  rejected s = true ∨ db s !! rid = None →
  ∃ evs s', markAttendance a rid now s = (Normal (), s', evs) ∧
            (s' = s ∨ s' = after_call s) ∧
            registrations s' = registrations s ∧ db s' = db s.
Proof.
  intros Hr. destruct (validDocumentId rid) eqn:Hk.
  - rewrite (mark_update_rejected a rid now s Hk Hr).
    destruct (after_call_fields s) as (? & _ & ?). eauto 10.
  - rewrite (mark_invalid_id a rid now s Hk). eauto 10.
Qed.

Lemma mark_update_accepted_organizer a rid now s d :
  rejected s = false → db s !! rid = Some d →
  hasRole a "organizer" = true →
  let refresh := fetchRegistrations a (written rid (checkIn now d) s) in
  markAttendance a rid now s =
    (Normal (), final refresh, UpdateDoc rid now true :: events refresh).
Proof.
  intros Hr Hd Ho. cbv zeta.
  pose proof (db_lookup_valid s rid d Hd) as Hk.
  unfold markAttendance, try_catch, mbind, M_bind, doc, updateDoc.
  rewrite Hk. cbn [refId]. rewrite next_fault_eta, Hr, Ho.
  destruct (after_call_fields s) as (_ & _ & Hdb). rewrite Hdb, Hd.
  unfold written. rewrite after_call_store.
  destruct (fetch_total a (with_db (<[rid := checkIn now d]> (store s)) (after_call s)))
    as (s' & evs & E).
  by rewrite E.
Qed.

Lemma mark_update_accepted_other a rid now s d :
  rejected s = false → db s !! rid = Some d →
  hasRole a "organizer" = false →
  markAttendance a rid now s =
    (Normal (),
     mkSys (patch rid now <$> registrations s) (loading s)
       (<[rid := checkIn now d]> (store s)) (faults (after_call s)),
     [UpdateDoc rid now true; SetRegistrations (patch rid now <$> registrations s)]).
Proof.
  intros Hr Hd Ho.
  pose proof (db_lookup_valid s rid d Hd) as Hk.
  unfold markAttendance, try_catch, mbind, M_bind, doc, updateDoc.
  rewrite Hk. cbn [refId]. rewrite next_fault_eta, Hr, Ho.
  destruct (after_call_fields s) as (Hregs & Hload & Hdb). rewrite Hdb, Hd.
  unfold updateRegistrations, setRegistrations, with_db. simpl.
  by rewrite Hregs, Hload, after_call_store.
Qed.

(** The collection after an accepted update seen through the patch
    branch. *)
Lemma db_after_patch regs l fs rid now s d :
  db s !! rid = Some d →
  db (mkSys regs l (<[rid := checkIn now d]> (store s)) fs)
  = <[rid := checkIn now d]> (db s).
Proof.
  intros Hd. rewrite (db_insert _ _ _ rid _ _ (db_lookup_valid s rid d Hd)).
  by destruct s.
Qed.



(** ** Preservation of a property of [registrations] and the collection *)

Section StoreInvariant.
Variable WS : list Registration.t → Prop.
Variable DB : gmap string DocumentData.t → Prop.

Hypothesis WS_nil : WS [].
Hypothesis WS_fetched : ∀ q d, DB d → WS (fromSnapshot <$> run_query q d).
Hypothesis WS_patch : ∀ rid now regs, WS regs → WS (patch rid now <$> regs).
Hypothesis DB_create : ∀ u eventId now d,
  DB d → DB (<[registrationId u eventId := toData (newRegistration u eventId now)]> d).
Hypothesis DB_checkIn : ∀ rid now d doc,
  DB d → d !! rid = Some doc → DB (<[rid := checkIn now doc]> d).

Lemma holds_after_call s : holds WS DB s → holds WS DB (after_call s).
Proof.
  unfold holds. by destruct (after_call_fields s) as (-> & _ & ->).
Qed.

Lemma fetch_preserves a s :
  holds WS DB s → holds WS DB (final (fetchRegistrations a s)).
Proof.
  intros [Hws Hdb]. split; [|by rewrite fetch_db].
  fetch_cases a s; simpl; auto.
Qed.

Lemma register_preserves a eventId now s :
  holds WS DB s → holds WS DB (final (registerForEvent a eventId now s)).
Proof.
  intros Hs. destruct (user a) as [u|] eqn:Hu.
  - destruct (alreadyRegistered (registrationId u eventId) (registrations s)) eqn:Hdup.
    { by rewrite (register_duplicate a u eventId now s Hu Hdup). }
    destruct (validDocumentId (registrationId u eventId)) eqn:Hk.
    2: { by rewrite (register_invalid_key a u eventId now s Hu Hdup Hk). }
    destruct (rejected s) eqn:Hr.
    + rewrite (register_write_rejected a u eventId now s Hu Hdup Hk Hr).
      by apply holds_after_call.
    + rewrite (register_write_accepted a u eventId now s Hu Hdup Hk Hr).
      cbn [final fst snd]. apply fetch_preserves.
      destruct Hs as [Hws Hdb]. unfold holds.
      destruct (written_fields (registrationId u eventId)
        (toData (newRegistration u eventId now)) s Hk) as (-> & _ & ->).
      auto.
  - by rewrite (register_no_user a eventId now s Hu).
Qed.

Lemma mark_preserves a rid now s :
  holds WS DB s → holds WS DB (final (markAttendance a rid now s)).
Proof.
  intros Hs.
  assert (rejected s = true ∨ db s !! rid = None → 
          holds WS DB (final (markAttendance a rid now s))) as Hsame.
  { intros Hr. destruct (mark_not_updated a rid now s Hr) as (evs & s' & -> & _ & Hregs & Hdb).
    cbn [final fst snd]. unfold holds. by rewrite Hregs, Hdb. }
  destruct (rejected s) eqn:Hr; [by apply Hsame; left|].
  destruct (db s !! rid) as [d|] eqn:Hd; [|by apply Hsame; right].
  destruct Hs as [Hws Hdb].
  destruct (hasRole a "organizer") eqn:Ho.
  - rewrite (mark_update_accepted_organizer a rid now s d Hr Hd Ho).
    cbn [final fst snd]. apply fetch_preserves. unfold holds.
    destruct (written_fields rid (checkIn now d) s (db_lookup_valid s rid d Hd))
      as (-> & _ & ->).
    eauto.
  - rewrite (mark_update_accepted_other a rid now s d Hr Hd Ho).
    cbn [final fst snd]. split.
    + simpl. eauto.
    + rewrite (db_after_patch _ _ _ rid now s d Hd). eauto.
Qed.

Lemma step_preserves s s' : step s s' → holds WS DB s → holds WS DB s'.
Proof.
  destruct 1; eauto using fetch_preserves, register_preserves, mark_preserves.
Qed.
End StoreInvariant.

(** ** The check-in invariant, step by step *)

Lemma consistent_patch rid now reg : consistent reg → consistent (patch rid now reg).
Proof. unfold patch. case_bool_decide; [|done]. by intros _. Qed.

Lemma consistent_fetched q d :
  map_Forall (λ _, consistentData) d → Forall consistent (fromSnapshot <$> run_query q d).
Proof.
  intros Hd. apply Forall_fmap, Forall_forall. intros [k doc] Hin.
  apply list_elem_of_filter in Hin as [_ Hin].
  apply elem_of_map_to_list in Hin. exact (Hd k doc Hin).
Qed.

Lemma Consistent_step s s' : step s s' → Consistent s → Consistent s'.
Proof.
  apply step_preserves.
  - constructor.
  - apply consistent_fetched.
  - intros rid now regs Hregs. apply Forall_fmap.
    eapply Forall_impl; [exact Hregs|]. intros reg. apply consistent_patch.
  - intros u eventId now d Hd. by apply map_Forall_insert_2.
  - intros rid now d doc Hd _. by apply map_Forall_insert_2.
Qed.

Lemma Consistent_reachable s s' : rtc step s s' → Consistent s → Consistent s'.
Proof. induction 1; eauto using Consistent_step. Qed.

(** ** Ids are unique, step by step *)









(** * Main results *)

(** ** Fetching *)

(** C1. With the identity resolved, [fetchRegistrations] scopes its read by
    the role: an organizer reads the whole collection, a student reads the
    documents whose [userId] is the student's id, and any other role or no
    identity empties [registrations] without any database call.  When the
    read succeeds the fetched records replace [registrations] whatever it
    held before. *)
Theorem fetch_scoped_by_role (a : Auth) (s : Sys) :
  authLoading a = false →
  let r := fetchRegistrations a s in
  (hasRole a "organizer" = true →
     dbCalls (events r) = [GetDocs Collection (negb (rejected s))] ∧
     (rejected s = false →
        registrations (final r) = fromSnapshot <$> map_to_list (db s)))
  ∧ (∀ u, user a = Some u → User.role u = "student" →
     dbCalls (events r) = [GetDocs (WhereUserId (User.id u)) (negb (rejected s))] ∧
     (rejected s = false →
        registrations (final r) =
          fromSnapshot <$>
            filter (λ kd, DocumentData.userId kd.2 = User.id u) (map_to_list (db s)) ∧
        Forall (λ reg, Registration.userId reg = User.id u) (registrations (final r))))
  ∧ (hasRole a "organizer" = false → hasRole a "student" = false →
     registrations (final r) = [] ∧
     events r = [SetLoading true; SetRegistrations []; SetLoading false; SetLoading false] ∧
     dbCalls (events r) = [] ∧ db (final r) = db s ∧ faults (final r) = faults s).
Proof.
  intros Hl r. subst r. split; [|split].
  - intros Ho.
    destruct (fetch_query_cases a s Collection Hl (chooseQuery_organizer a Ho))
      as (_ & Hcalls & Hregs & _).
    split; [done|]. intros Hr. rewrite Hregs, Hr. by rewrite run_query_collection.
  - intros u Hu Hrole.
    destruct (fetch_query_cases a s _ Hl (chooseQuery_student a u Hu Hrole))
      as (_ & Hcalls & Hregs & _).
    split; [done|]. intros Hr. rewrite Hregs, Hr. split; [done|].
    apply Forall_fmap, Forall_forall. intros kd Hkd.
    apply list_elem_of_filter in Hkd. by destruct Hkd.
  - intros Ho Hs. by rewrite (fetch_no_query a s Hl (chooseQuery_other a Ho Hs)).
Qed.

Lemma fetch_scoped_by_role_witness :
  authLoading student_u1 = false ∧
  registrations (final (fetchRegistrations student_u1 (initial sample_db [])))
  = [reg_u1_e1].
Proof.
  split; [reflexivity|].
  destruct (fetch_scoped_by_role student_u1 (initial sample_db []) eq_refl)
    as (_ & Hstudent & _).
  destruct (Hstudent (User.mk "u1" "student") eq_refl eq_refl) as (_ & Hok).
  destruct (Hok eq_refl) as (-> & _).
  vm_compute. reflexivity.
Defined.

(** The pending skip leaves [loading] at [true] when it was [true], as it
    is right after mounting: the call completes and the flag is not
    [false]. *)
Lemma fetch_pending_loading_sticks :
  let r := fetchRegistrations pending (initial ∅ []) in
  completion r = Normal () ∧ loading (final r) = true ∧ ¬ loading (final r) = false.
Proof. by vm_compute. Qed.

(** C6, as the code has it. Once the identity is resolved,
    [fetchRegistrations] first sets [loading] to [true], ends by setting it
    to [false] on every way out (successful read, rejected read, or the
    skip for a missing or other role), and does not reset it before a
    database call it makes has returned.  While the identity is still
    pending the call does nothing at all, so [loading] keeps its value. *)
Theorem fetch_loading_flag (a : Auth) (s : Sys) :
  let r := fetchRegistrations a s in
  (authLoading a = false →
     completion r = Normal () ∧
     loading (final r) = false ∧
     ∃ mid, events r = SetLoading true :: mid ++ [SetLoading false] ∧
            (dbCalls mid = [] ∨ SetLoading false ∉ mid))
  ∧ (authLoading a = true → r = (Normal (), s, []) ∧ loading (final r) = loading s).
Proof.
  cbv zeta. split; intros Hl.
  - destruct (chooseQuery a) as [q|] eqn:Hq.
    + destruct (rejected s) eqn:Hr.
      * rewrite (fetch_failure a s q Hl Hq Hr). repeat split.
        exists [GetDocs q false; ConsoleError fetchError]. split; [done|].
        right. not_in_log.
      * rewrite (fetch_success a s q Hl Hq Hr). repeat split.
        eexists [GetDocs q true; SetRegistrations _]. split; [done|].
        right. not_in_log.
    + rewrite (fetch_no_query a s Hl Hq). repeat split.
      exists [SetRegistrations []; SetLoading false]. split; [done|].
      by left.
  - by rewrite (fetch_pending a s Hl).
Qed.

Lemma fetch_loading_flag_witness :
  authLoading organizer_org1 = false ∧
  loading (final (fetchRegistrations organizer_org1 (initial sample_db [true]))) = false.
Proof.
  split; [reflexivity|].
  destruct (fetch_loading_flag organizer_org1 (initial sample_db [true])) as [H _].
  by destruct (H eq_refl) as (_ & ? & _).
Defined.

Example scenario_F :
  let r := fetchRegistrations student_u1 (mkSys [reg_u1_e1] true sample_db [true]) in
  loading (final r) = false ∧ registrations (final r) = [reg_u1_e1] ∧
  events r = [SetLoading true; GetDocs (WhereUserId "u1") false;
              ConsoleError fetchError; SetLoading false].
Proof. by vm_compute. Qed.

(** ** Registering *)

(** C4. Without an identity, [registerForEvent] only logs the
    unauthenticated condition: it completes normally (nothing is thrown to
    the caller), issues no database call, and leaves [registrations], and
    the rest of the state, as they were. *)
Theorem register_unauthenticated
    (pending_auth : bool) (eventId now : string) (s : Sys) :
  let r := registerForEvent (mkAuth None pending_auth) eventId now s in
  completion r = Normal () ∧
  events r = [ConsoleError unauthenticated] ∧
  dbCalls (events r) = [] ∧
  db (final r) = db s ∧
  registrations (final r) = registrations s ∧
  final r = s.
Proof. by cbv zeta. Qed.

Example scenario_E :
  registerForEvent anonymous "e1" "t1" (initial sample_db [])
  = (Normal (), initial sample_db [], [ConsoleError unauthenticated]).
Proof. reflexivity. Qed.



(** An event id with a slash gives a key that is no document id. *)
Example register_slash_in_event_id :
  registerForEvent student_u1 "a/b" "t1" (initial sample_db [])
  = (Normal (), initial sample_db [], [ConsoleError createError]).
Proof. by vm_compute. Qed.

Example scenario_A :
  let s1 := final (registerForEvent student_u1 "e1" "t1" (initial ∅ [])) in
  registrations s1 = [Registration.mk "u1-e1" "u1" "e1" "t1" false None] ∧
  userRegistrations student_u1 (registrations s1) = registrations s1 ∧
  isUserRegistered student_u1 (registrations s1) "e1" = true.
Proof. by vm_compute. Qed.



Example scenario_B :
  let once := registerForEvent student_u1 "e1" "t1" (initial ∅ []) in
  let twice := registerForEvent student_u1 "e1" "t2" (final once) in
  registrations (final twice) = [Registration.mk "u1-e1" "u1" "e1" "t1" false None] ∧
  events twice = [].
Proof. by vm_compute. Qed.

(** ** Marking attendance *)



Example scenario_C :
  let r := markAttendance organizer_org1 "u1-e1" "t7" (initial sample_db []) in
  allRegistrations organizer_org1 (registrations (final r))
  = fromSnapshot <$> map_to_list
      (<["u1-e1" := DocumentData.mk (Some "u1-e1") "u1" "e1" "t0" true (Some "t7")]> sample_db)
  ∧ dbCalls (events r) = [UpdateDoc "u1-e1" "t7" true; GetDocs Collection true].
Proof. by vm_compute. Qed.

Example scenario_D :
  events (markAttendance student_u1 "u1-e1" "t7" (mkSys [reg_u1_e1] false sample_db []))
  = [UpdateDoc "u1-e1" "t7" true;
     SetRegistrations [Registration.mk "u1-e1" "u1" "e1" "t0" true (Some "t7")]].
Proof. by vm_compute. Qed.




(** ** Failure containment *)

(** C5. None of the three operations throws to its caller, whatever the
    database does; and whenever a database call made by an operation (the
    read, the create or the attendance update) is rejected, [registrations]
    ends with the value it had before the operation. *)
Theorem db_failures_contained (a : Auth) (s : Sys) :
  (let r := fetchRegistrations a s in
   completion r = Normal () ∧
   (existsb failed (events r) = true → registrations (final r) = registrations s))
  ∧ (∀ eventId now,
       let r := registerForEvent a eventId now s in
       completion r = Normal () ∧
       (existsb failed (events r) = true → registrations (final r) = registrations s))
  ∧ (∀ rid now,
       let r := markAttendance a rid now s in
       completion r = Normal () ∧
       (existsb failed (events r) = true → registrations (final r) = registrations s)).
Proof.
  split; [|split].
  - cbv zeta. split; [|apply fetch_failed_keeps].
    by destruct (fetch_total a s) as (s' & evs & ->).
  - intros eventId now. cbv zeta.
    destruct (user a) as [u|] eqn:Hu.
    + destruct (alreadyRegistered (registrationId u eventId) (registrations s)) eqn:Hdup.
      { by rewrite (register_duplicate a u eventId now s Hu Hdup). }
      destruct (validDocumentId (registrationId u eventId)) eqn:Hk.
      2: { by rewrite (register_invalid_key a u eventId now s Hu Hdup Hk). }
      destruct (rejected s) eqn:Hr.
      * rewrite (register_write_rejected a u eventId now s Hu Hdup Hk Hr).
        by destruct (after_call_fields s) as (? & _).
      * rewrite (register_write_accepted a u eventId now s Hu Hdup Hk Hr).
        split; [done|].
        cbn [events final fst snd existsb failed negb orb]. intros Hfail.
        rewrite (fetch_failed_keeps _ _ Hfail).
        by destruct (written_fields (registrationId u eventId)
          (toData (newRegistration u eventId now)) s Hk) as (? & _).
    + by rewrite (register_no_user a eventId now s Hu).
  - intros rid now. cbv zeta.
    assert (rejected s = true ∨ db s !! rid = None →
            completion (markAttendance a rid now s) = Normal () ∧
            (existsb failed (events (markAttendance a rid now s)) = true →
             registrations (final (markAttendance a rid now s)) = registrations s))
      as Hsame.
    { intros Hr.
      by destruct (mark_not_updated a rid now s Hr) as (evs & s' & -> & _ & Hregs & _). }
    destruct (rejected s) eqn:Hr; [by apply Hsame; left|].
    destruct (db s !! rid) as [d|] eqn:Hd; [|by apply Hsame; right].
    destruct (hasRole a "organizer") eqn:Ho.
    + rewrite (mark_update_accepted_organizer a rid now s d Hr Hd Ho).
      split; [done|].
      cbn [events final fst snd existsb failed negb orb]. intros Hfail.
      rewrite (fetch_failed_keeps _ _ Hfail).
      by destruct (written_fields rid (checkIn now d) s (db_lookup_valid s rid d Hd))
        as (? & _).
    + by rewrite (mark_update_accepted_other a rid now s d Hr Hd Ho).
Qed.

Lemma db_failures_contained_witness :
  let s := mkSys [reg_u1_e1] false sample_db [false; true] in
  existsb failed (events (registerForEvent student_u1 "e2" "t9" s)) = true ∧
  registrations (final (registerForEvent student_u1 "e2" "t9" s)) = [reg_u1_e1].
Proof.
  cbv zeta. split; [by vm_compute|].
  destruct (db_failures_contained student_u1
    (mkSys [reg_u1_e1] false sample_db [false; true])) as (_ & Hreg & _).
  destruct (Hreg "e2" "t9") as (_ & Hkeep).
  apply Hkeep. by vm_compute.
Defined.

(** ** The check-in invariant *)

Lemma db_Forall (P : string → DocumentData.t → Prop) s :
  map_Forall P (store s) → map_Forall P (db s).
Proof.
  intros H k d Hk. apply db_lookup_Some in Hk as [Hk _]. by apply H.
Qed.

(** C7. In every state reached from the freshly mounted provider by any
    sequence of store operations over a collection that satisfies it to
    begin with, every record of [registrations] (and every stored
    document) has [checkedIn = false] exactly when [checkedInAt] is absent;
    each operation preserves this.  [registerForEvent] creates its record
    with [checkedIn = false] and no [checkedInAt], and that is the document
    an accepted write leaves under the key; [markAttendance] sets
    [checkedIn = true] and [checkedInAt] together: an accepted update
    leaves the targeted document with both, and the local patch gives both
    to every record with that id (after an organizer's accepted refresh the
    record fetched from that document carries both). *)
Theorem checked_in_invariant :
  (∀ d fs s,
     map_Forall (λ _, consistentData) d →
     rtc step (initial d fs) s →
     Forall consistent (registrations s) ∧ map_Forall (λ _, consistentData) (db s))
  ∧ (∀ a s, Consistent s →
       Consistent (final (fetchRegistrations a s)) ∧
       (∀ eventId now, Consistent (final (registerForEvent a eventId now s))) ∧
       (∀ rid now, Consistent (final (markAttendance a rid now s))))
  ∧ (∀ u eventId now,
       Registration.checkedIn (newRegistration u eventId now) = false ∧
       Registration.checkedInAt (newRegistration u eventId now) = None ∧
       DocumentData.checkedIn (toData (newRegistration u eventId now)) = false ∧
       DocumentData.checkedInAt (toData (newRegistration u eventId now)) = None)
  ∧ (∀ now d,
       DocumentData.checkedIn (checkIn now d) = true ∧
       DocumentData.checkedInAt (checkIn now d) = Some now)
  ∧ (∀ rid now reg,
       Registration.id reg = rid →
       Registration.checkedIn (patch rid now reg) = true ∧
       Registration.checkedInAt (patch rid now reg) = Some now)
  ∧ (∀ a u eventId now s,
       user a = Some u →
       alreadyRegistered (registrationId u eventId) (registrations s) = false →
       validDocumentId (registrationId u eventId) = true →
       rejected s = false →
       let r := registerForEvent a eventId now s in
       head (events r) =
         Some (SetDoc (registrationId u eventId)
                 (DocumentData.mk (Some (registrationId u eventId)) (User.id u) eventId
                    now false None) true) ∧
       db (final r) !! registrationId u eventId =
         Some (DocumentData.mk (Some (registrationId u eventId)) (User.id u) eventId
                 now false None))
  ∧ (∀ a rid now s d,
       rejected s = false → db s !! rid = Some d →
       let r := markAttendance a rid now s in
       head (events r) = Some (UpdateDoc rid now true) ∧
       db (final r) !! rid =
         Some (DocumentData.mk (DocumentData.id d) (DocumentData.userId d)
                 (DocumentData.eventId d) (DocumentData.registrationDate d)
                 true (Some now)) ∧
       (hasRole a "organizer" = false →
          registrations (final r) = patch rid now <$> registrations s ∧
          Forall (λ reg, Registration.id reg = rid →
                         Registration.checkedIn reg = true ∧
                         Registration.checkedInAt reg = Some now)
            (registrations (final r))) ∧
       (hasRole a "organizer" = true → authLoading a = false → faults s = [] →
          fromSnapshot (rid, checkIn now d) ∈ registrations (final r))).
Proof.
  split; [|split; [|split; [|split; [|split; [|split]]]]].
  - intros d fs s Hd Hreach.
    apply (Consistent_reachable (initial d fs) s Hreach).
    split; [constructor|]. by apply db_Forall.
  - intros a s Hs. split; [|split].
    + eapply Consistent_step; [apply step_fetch|exact Hs].
    + intros eventId now. eapply Consistent_step; [apply step_register|exact Hs].
    + intros rid now. eapply Consistent_step; [apply step_mark|exact Hs].
  - done.
  - done.
  - intros rid now reg Hid. unfold patch. by rewrite bool_decide_eq_true_2.
  - intros a u eventId now s Hu Hdup Hk Hr. cbv zeta.
    rewrite (register_write_accepted a u eventId now s Hu Hdup Hk Hr).
    split; [done|]. cbn [final fst snd]. rewrite fetch_db.
    destruct (written_fields (registrationId u eventId)
      (toData (newRegistration u eventId now)) s Hk) as (_ & _ & ->).
    apply lookup_insert_eq.
  - intros a rid now s d Hr Hd. cbv zeta.
    pose proof (db_lookup_valid s rid d Hd) as Hk.
    destruct (written_fields rid (checkIn now d) s Hk) as (_ & _ & Hdb).
    destruct (hasRole a "organizer") eqn:Ho.
    + rewrite (mark_update_accepted_organizer a rid now s d Hr Hd Ho).
      cbn [final fst snd events]. split; [done|]. split.
      { rewrite fetch_db, Hdb. apply lookup_insert_eq. }
      split; [intros [=]|]. intros _ Hl Hf.
      destruct (written_no_faults rid (checkIn now d) s Hf) as [Hr1 _].
      rewrite (fetch_success a _ Collection Hl (chooseQuery_organizer a Ho) Hr1).
      cbn [final fst snd registrations]. rewrite Hdb, run_query_collection.
      apply list_elem_of_fmap. exists (rid, checkIn now d). split; [done|].
      apply elem_of_map_to_list, lookup_insert_eq.
    + rewrite (mark_update_accepted_other a rid now s d Hr Hd Ho).
      cbn [final fst snd events registrations]. split; [done|]. split.
      { rewrite (db_after_patch _ _ _ rid now s d Hd). apply lookup_insert_eq. }
      split; [|intros [=]]. intros _. split; [done|].
      apply Forall_fmap, Forall_forall. intros reg _. simpl.
      unfold patch. case_bool_decide as Hmatch; simpl; [done|].
      intros Hid. by destruct Hmatch.
Qed.

Lemma sample_db_consistent : map_Forall (λ _, consistentData) sample_db.
Proof.
  unfold sample_db. apply map_Forall_insert_2; [done|].
  apply map_Forall_insert_2; [done|]. apply map_Forall_empty.
Qed.

Lemma checked_in_invariant_witness :
  let s1 := final (fetchRegistrations organizer_org1 (initial sample_db [])) in
  let s2 := final (markAttendance organizer_org1 "u1-e1" "t7" s1) in
  map_Forall (λ _, consistentData) sample_db ∧
  rtc step (initial sample_db []) s2 ∧
  Forall consistent (registrations s2).
Proof.
  cbv zeta.
  assert (rtc step (initial sample_db [])
    (final (markAttendance organizer_org1 "u1-e1" "t7"
       (final (fetchRegistrations organizer_org1 (initial sample_db [])))))) as Hreach.
  { eapply rtc_l; [apply step_fetch|]. apply rtc_once, step_mark. }
  split; [exact sample_db_consistent|]. split; [exact Hreach|].
  destruct checked_in_invariant as (Hinv & _).
  exact (proj1 (Hinv sample_db [] _ sample_db_consistent Hreach)).
Defined.

(** ** Derived views *)

(** C8. [userRegistrations] is a sub-list of [registrations] whose members
    all belong to the identity (for a student in particular) and is empty
    without an identity; [allRegistrations] is [registrations] for an
    organizer and empty for every other role and for no identity. *)
Theorem derived_views_visibility (a : Auth) (regs : list Registration.t) :
  (∀ u, user a = Some u → User.role u = "student" →
     userRegistrations a regs ⊆ regs ∧
     sublist (userRegistrations a regs) regs ∧
     Forall (λ reg, Registration.userId reg = User.id u) (userRegistrations a regs))
  ∧ (user a = None → userRegistrations a regs = [])
  ∧ (hasRole a "organizer" = true → allRegistrations a regs = regs)
  ∧ (hasRole a "organizer" = false → allRegistrations a regs = []).
Proof.
  unfold userRegistrations, allRegistrations.
  split; [|split; [|split]].
  - intros u Hu _. rewrite Hu. split; [apply list_subseteq_filter|].
    split; [apply sublist_filter|].
    apply Forall_forall. intros reg Hreg.
    apply list_elem_of_filter in Hreg. by destruct Hreg.
  - by intros ->.
  - by intros ->.
  - by intros ->.
Qed.

Lemma derived_views_visibility_witness :
  user student_u1 = Some (User.mk "u1" "student") ∧
  userRegistrations student_u1 [reg_u1_e1; reg_u2_e1] ⊆ [reg_u1_e1; reg_u2_e1] ∧
  Forall (λ reg, Registration.userId reg = "u1")
    (userRegistrations student_u1 [reg_u1_e1; reg_u2_e1]) ∧
  hasRole student_u1 "organizer" = false ∧
  allRegistrations student_u1 [reg_u1_e1; reg_u2_e1] = [].
Proof.
  destruct (derived_views_visibility student_u1 [reg_u1_e1; reg_u2_e1])
    as (Hstudent & _ & _ & Hother).
  destruct (Hstudent (User.mk "u1" "student") eq_refl eq_refl) as (Hsub & _ & Hown).
  split; [reflexivity|]. split; [exact Hsub|]. split; [exact Hown|].
  split; [reflexivity|]. exact (Hother eq_refl).
Defined.

(** * Further properties of the store *)

(** ** What the operations do to the collection *)

Lemma fetch_state a s :
  let s' := final (fetchRegistrations a s) in
  db s' = db s ∧ (faults s = [] → faults s' = []).
Proof. cbv zeta. split; [apply fetch_db|apply fetch_faults_nil]. Qed.

(** The collection after any run of [markAttendance]. *)
Lemma mark_db a rid now s :
  db (final (markAttendance a rid now s)) =
    match db s !! rid with
    | Some d => if rejected s then db s else <[rid := checkIn now d]> (db s)
    | None => db s
    end.
Proof.
  assert (rejected s = true ∨ db s !! rid = None →
          db (final (markAttendance a rid now s)) = db s) as Hsame.
  { intros Hr.
    by destruct (mark_not_updated a rid now s Hr) as (evs & s' & -> & _ & _ & Hdb). }
  destruct (rejected s) eqn:Hr.
  { rewrite Hsame by (by left). by destruct (db s !! rid). }
  destruct (db s !! rid) as [d|] eqn:Hd; [|by apply Hsame; right].
  destruct (hasRole a "organizer") eqn:Ho.
  - rewrite (mark_update_accepted_organizer a rid now s d Hr Hd Ho).
    cbn [final fst snd]. rewrite fetch_db.
    by destruct (written_fields rid (checkIn now d) s (db_lookup_valid s rid d Hd))
      as (_ & _ & ->).
  - rewrite (mark_update_accepted_other a rid now s d Hr Hd Ho).
    cbn [final fst snd]. by apply db_after_patch.
Qed.

Lemma mark_faults_nil a rid now s :
  faults s = [] → faults (final (markAttendance a rid now s)) = [].
Proof.
  intros Hf. destruct (no_faults s Hf) as [Hr Hac].
  destruct (db s !! rid) as [d|] eqn:Hd.
  - destruct (hasRole a "organizer") eqn:Ho.
    + rewrite (mark_update_accepted_organizer a rid now s d Hr Hd Ho).
      cbn [final fst snd]. apply fetch_faults_nil.
      by apply written_no_faults.
    + rewrite (mark_update_accepted_other a rid now s d Hr Hd Ho). simpl.
      by rewrite Hac.
  - destruct (mark_not_updated a rid now s (or_intror Hd))
      as (evs & s' & -> & [-> | ->] & _); cbn [final fst snd]; by rewrite ?Hac.
Qed.

(** The collection after any run of [registerForEvent] is the old one, or
    the old one with one document written. *)
Lemma register_db a eventId now s :
  db (final (registerForEvent a eventId now s)) = db s ∨
  ∃ u, user a = Some u ∧
       db (final (registerForEvent a eventId now s)) =
         <[registrationId u eventId := toData (newRegistration u eventId now)]> (db s).
Proof.
  destruct (user a) as [u|] eqn:Hu.
  - destruct (alreadyRegistered (registrationId u eventId) (registrations s)) eqn:Hdup.
    { left. by rewrite (register_duplicate a u eventId now s Hu Hdup). }
    destruct (validDocumentId (registrationId u eventId)) eqn:Hk.
    2: { left. by rewrite (register_invalid_key a u eventId now s Hu Hdup Hk). }
    destruct (rejected s) eqn:Hr.
    + left. rewrite (register_write_rejected a u eventId now s Hu Hdup Hk Hr).
      cbn [final fst snd]. by destruct (after_call_fields s) as (_ & _ & ->).
    + right. exists u. split; [done|].
      rewrite (register_write_accepted a u eventId now s Hu Hdup Hk Hr).
      cbn [final fst snd]. rewrite fetch_db.
      by destruct (written_fields (registrationId u eventId)
        (toData (newRegistration u eventId now)) s Hk) as (_ & _ & ->).
  - left. by rewrite (register_no_user a eventId now s Hu).
Qed.

Lemma step_keeps_documents s s' k :
  step s s' → is_Some (db s !! k) → is_Some (db s' !! k).
Proof.
  intros Hstep Hk. destruct Hstep as [a s|a eventId now s|a rid now s].
  - by rewrite fetch_db.
  - destruct (register_db a eventId now s) as [-> | (u & _ & ->)]; [done|].
    apply lookup_insert_is_Some'. by right.
  - rewrite mark_db. destruct (db s !! rid) as [d|]; [|done].
    destruct (rejected s); [done|].
    apply lookup_insert_is_Some'. by right.
Qed.

(** X1. No sequence of store operations ever removes a document from the
    collection: a key present before is present after any number of
    fetches, registrations and attendance updates, whatever the identity,
    the arguments and the database faults. *)
Theorem documents_never_deleted (s s' : Sys) (k : string) :
  rtc step s s' → is_Some (db s !! k) → is_Some (db s' !! k).
Proof.
  induction 1 as [|s1 s2 s3 Hstep _ IH]; [done|].
  intros Hk. apply IH. by apply (step_keeps_documents s1 s2).
Qed.

Lemma documents_never_deleted_witness :
  let s := initial sample_db [] in
  let s1 := final (registerForEvent student_u1 "e1" "t1" s) in
  let s2 := final (markAttendance organizer_org1 "u2-e1" "t2" s1) in
  rtc step s s2 ∧ is_Some (db s !! "u2-e1") ∧ is_Some (db s2 !! "u2-e1").
Proof.
  cbv zeta.
  assert (rtc step (initial sample_db [])
    (final (markAttendance organizer_org1 "u2-e1" "t2"
       (final (registerForEvent student_u1 "e1" "t1" (initial sample_db []))))))
    as Hreach.
  { eapply rtc_l; [apply step_register|]. apply rtc_once, step_mark. }
  assert (is_Some (db (initial sample_db []) !! "u2-e1")) as Hk by (vm_compute; eauto).
  split; [exact Hreach|]. split; [exact Hk|].
  exact (documents_never_deleted _ _ "u2-e1" Hreach Hk).
Defined.


(** X3. Nothing guards against a repeated check-in: when the database
    accepts both calls, two [markAttendance] calls on the same existing
    document leave it with the timestamp of the second call. *)
Theorem mark_attendance_last_timestamp_wins
    (a1 a2 : Auth) (rid now1 now2 : string) (s : Sys) (d : DocumentData.t) :
  faults s = [] → db s !! rid = Some d →
  let s1 := final (markAttendance a1 rid now1 s) in
  let s2 := final (markAttendance a2 rid now2 s1) in
  db s1 !! rid = Some (checkIn now1 d) ∧
  db s2 !! rid = Some (checkIn now2 d) ∧
  DocumentData.checkedInAt <$> db s2 !! rid = Some (Some now2).
Proof.
  intros Hf Hd. cbv zeta.
  destruct (no_faults s Hf) as [Hr _].
  pose proof (mark_faults_nil a1 rid now1 s Hf) as Hf1.
  destruct (no_faults _ Hf1) as [Hr1 _].
  assert (db (final (markAttendance a1 rid now1 s)) !! rid = Some (checkIn now1 d))
    as Hd1.
  { rewrite mark_db, Hd, Hr. apply lookup_insert_eq. }
  split; [done|].
  assert (db (final (markAttendance a2 rid now2 (final (markAttendance a1 rid now1 s))))
            !! rid = Some (checkIn now2 d)) as Hd2.
  { rewrite mark_db, Hd1, Hr1. apply lookup_insert_eq. }
  split; [done|]. by rewrite Hd2.
Qed.

Lemma mark_attendance_last_timestamp_wins_witness :
  let s := initial sample_db [] in
  faults s = [] ∧
  db s !! "u2-e1" = Some (toData reg_u2_e1) ∧
  DocumentData.checkedInAt <$>
    db (final (markAttendance student_u1 "u2-e1" "t9"
         (final (markAttendance organizer_org1 "u2-e1" "t8" s)))) !! "u2-e1"
  = Some (Some "t9").
Proof.
  cbv zeta. split; [reflexivity|].
  assert (db (initial sample_db []) !! "u2-e1" = Some (toData reg_u2_e1)) as Hd
    by (by vm_compute).
  split; [exact Hd|].
  exact (proj2 (proj2 (mark_attendance_last_timestamp_wins organizer_org1 student_u1
    "u2-e1" "t8" "t9" (initial sample_db []) (toData reg_u2_e1) eq_refl Hd))).
Defined.


(** ** Keeping [registrations] in step with the collection *)

Lemma snapshotOf_query a q d :
  chooseQuery a = Some q → snapshotOf a d = fromSnapshot <$> run_query q d.
Proof. unfold snapshotOf. by intros ->. Qed.

Lemma snapshotOf_none a d : chooseQuery a = None → snapshotOf a d = [].
Proof. unfold snapshotOf. by intros ->. Qed.



Lemma fetch_syncs a s :
  authLoading a = false → rejected s = false →
  registrations (final (fetchRegistrations a s)) = snapshotOf a (db s).
Proof.
  intros Hl Hr. destruct (chooseQuery a) as [q|] eqn:Hq.
  - rewrite (fetch_success a s q Hl Hq Hr). by rewrite (snapshotOf_query a q).
  - rewrite (fetch_no_query a s Hl Hq). by rewrite (snapshotOf_none a).
Qed.

Lemma register_syncs a u eventId now s :
  authLoading a = false → user a = Some u → faults s = [] →
  alreadyRegistered (registrationId u eventId) (registrations s) = false →
  validDocumentId (registrationId u eventId) = true →
  let s' := final (registerForEvent a eventId now s) in
  db s' = <[registrationId u eventId := toData (newRegistration u eventId now)]> (db s) ∧
  registrations s' = snapshotOf a (db s').
Proof.
  intros Hl Hu Hf Hdup Hk. cbv zeta.
  destruct (no_faults s Hf) as [Hr Hac].
  rewrite (register_write_accepted a u eventId now s Hu Hdup Hk Hr).
  cbn [final fst snd].
  set (s1 := written (registrationId u eventId)
               (toData (newRegistration u eventId now)) s).
  destruct (written_no_faults (registrationId u eventId)
              (toData (newRegistration u eventId now)) s Hf) as [Hr1 _].
  rewrite fetch_db, (fetch_syncs a s1 Hl Hr1). unfold s1.
  by destruct (written_fields (registrationId u eventId)
    (toData (newRegistration u eventId now)) s Hk) as (_ & _ & ->).
Qed.

(** X4. A refresh leaves [registrations] equal to what the identity's
    query returns from the collection as it then is: for an accepted
    [fetchRegistrations] by a resolved identity, and for a non-duplicate
    [registerForEvent] under a key that is a document id when the database
    accepts both the write and the read (the new document is then part of
    the collection).  In particular a registration by an identity that is
    neither organizer nor student writes the document and leaves
    [registrations] empty. *)
Theorem refresh_matches_collection (a : Auth) (s : Sys) :
  authLoading a = false →
  (rejected s = false →
     let s' := final (fetchRegistrations a s) in
     registrations s' = snapshotOf a (db s') ∧ db s' = db s)
  ∧ (∀ u eventId now,
       user a = Some u → faults s = [] →
       alreadyRegistered (registrationId u eventId) (registrations s) = false →
       validDocumentId (registrationId u eventId) = true →
       let s' := final (registerForEvent a eventId now s) in
       db s' = <[registrationId u eventId := toData (newRegistration u eventId now)]> (db s) ∧
       registrations s' = snapshotOf a (db s') ∧
       (chooseQuery a = None → registrations s' = [])).
Proof.
  intros Hl. split.
  - intros Hr. cbv zeta. rewrite fetch_db. split; [by apply fetch_syncs|done].
  - intros u eventId now Hu Hf Hdup Hk. cbv zeta.
    destruct (register_syncs a u eventId now s Hl Hu Hf Hdup Hk) as (Hdb & Hregs).
    split; [done|]. split; [done|].
    intros Hq. rewrite Hregs. by apply snapshotOf_none.
Qed.

Lemma refresh_matches_collection_witness :
  let a := mkAuth (Some (User.mk "adm" "admin")) false in
  let s' := final (registerForEvent a "e1" "t1" (initial sample_db [])) in
  authLoading a = false ∧ validDocumentId "adm-e1" = true ∧
  is_Some (db s' !! "adm-e1") ∧ registrations s' = [].
Proof.
  cbv zeta. split; [reflexivity|]. split; [reflexivity|].
  destruct (refresh_matches_collection (mkAuth (Some (User.mk "adm" "admin")) false)
    (initial sample_db []) eq_refl) as (_ & Hreg).
  destruct (Hreg (User.mk "adm" "admin") "e1" "t1" eq_refl eq_refl eq_refl eq_refl)
    as (Hdb & _ & Hnone).
  split; [|exact (Hnone eq_refl)].
  rewrite Hdb. apply lookup_insert_is_Some'. by left.
Defined.





(** ** What the views show *)

Lemma filter_all {A} (P : A → Prop) `{∀ x, Decision (P x)} (l : list A) :
  Forall P l → filter P l = l.
Proof.
  induction 1 as [|x l Hx _ IH]; [done|].
  rewrite filter_cons_True by done. by rewrite IH.
Qed.

Lemma isUserRegistered_true a regs eventId :
  isUserRegistered a regs eventId = true ↔
  ∃ u reg, user a = Some u ∧ reg ∈ regs ∧
           Registration.userId reg = User.id u ∧ Registration.eventId reg = eventId.
Proof.
  unfold isUserRegistered, userRegistrations.
  destruct (user a) as [u|]; [|split; [done|by intros (? & ? & ? & _)]].
  rewrite existsb_exists. split.
  - intros (reg & Hin & He). apply list_elem_of_In, list_elem_of_filter in Hin as [Hu Hin].
    apply bool_decide_eq_true_1 in He. by exists u, reg.
  - intros (u' & reg & [= <-] & Hin & Hu & He). exists reg. split.
    + apply list_elem_of_In, list_elem_of_filter. by split.
    + by apply bool_decide_eq_true_2.
Qed.

(** X6. [isUserRegistered] answers [true] exactly when an identity is
    present and [registrations] holds a record of that identity for the
    event; the record's [id] plays no part, and without an identity the
    answer is [false]. *)
Theorem isUserRegistered_spec
    (a : Auth) (regs : list Registration.t) (eventId : string) :
  (isUserRegistered a regs eventId = true ↔
   ∃ u reg, user a = Some u ∧ reg ∈ regs ∧
            Registration.userId reg = User.id u ∧ Registration.eventId reg = eventId)
  ∧ (user a = None → isUserRegistered a regs eventId = false).
Proof.
  split; [apply isUserRegistered_true|].
  unfold isUserRegistered. by intros ->.
Qed.

(** X7. What each role sees after an accepted refresh, for a resolved
    identity.  A student's [registrations] holds own records only, so
    [userRegistrations] is all of it and [allRegistrations] is empty; an
    organizer's [allRegistrations] is the whole collection; any other
    identity, or none, sees nothing in either view. *)
Theorem views_after_refresh (a : Auth) (s : Sys) :
  authLoading a = false → rejected s = false →
  let regs := registrations (final (fetchRegistrations a s)) in
  (hasRole a "student" = true →
     userRegistrations a regs = regs ∧ allRegistrations a regs = [])
  ∧ (hasRole a "organizer" = true →
     allRegistrations a regs = fromSnapshot <$> map_to_list (db s))
  ∧ (hasRole a "student" = false → hasRole a "organizer" = false →
     userRegistrations a regs = [] ∧ allRegistrations a regs = []).
Proof.
  intros Hl Hr. cbv zeta. rewrite (fetch_syncs a s Hl Hr).
  split; [|split].
  - intros Hs. unfold hasRole in Hs. destruct (user a) as [u|] eqn:Hu; [|done].
    apply bool_decide_eq_true_1 in Hs.
    rewrite (snapshotOf_query a _ _ (chooseQuery_student a u Hu Hs)).
    split.
    + unfold userRegistrations. rewrite Hu. apply filter_all.
      apply Forall_fmap, Forall_forall. intros kd Hkd.
      apply list_elem_of_filter in Hkd. by destruct Hkd.
    + unfold allRegistrations, hasRole. by rewrite Hu, Hs.
  - intros Ho. rewrite (snapshotOf_query a _ _ (chooseQuery_organizer a Ho)).
    unfold allRegistrations. rewrite Ho. by rewrite run_query_collection.
  - intros Hs Ho. rewrite (snapshotOf_none a _ (chooseQuery_other a Ho Hs)).
    unfold userRegistrations, allRegistrations. rewrite Ho. by destruct (user a).
Qed.

Lemma views_after_refresh_witness :
  let regs := registrations (final (fetchRegistrations student_u1 (initial sample_db []))) in
  authLoading student_u1 = false ∧ rejected (initial sample_db []) = false ∧
  hasRole student_u1 "student" = true ∧
  userRegistrations student_u1 regs = regs ∧ allRegistrations student_u1 regs = [].
Proof.
  cbv zeta. split; [reflexivity|]. split; [reflexivity|]. split; [reflexivity|].
  destruct (views_after_refresh student_u1 (initial sample_db []) eq_refl eq_refl)
    as (Hstudent & _).
  exact (Hstudent eq_refl).
Defined.

(** X8. After a non-duplicate [registerForEvent] by a resolved student or
    organizer under a key that is a document id, with the write and the
    read accepted, [isUserRegistered] answers [true] for that event. *)
Theorem registered_after_register
    (a : Auth) (u : User.t) (eventId now : string) (s : Sys) :
  user a = Some u → authLoading a = false →
  User.role u = "student" ∨ User.role u = "organizer" →
  faults s = [] →
  alreadyRegistered (registrationId u eventId) (registrations s) = false →
  validDocumentId (registrationId u eventId) = true →
  isUserRegistered a (registrations (final (registerForEvent a eventId now s))) eventId
  = true.
Proof.
  intros Hu Hl Hrole Hf Hdup Hk.
  destruct (register_syncs a u eventId now s Hl Hu Hf Hdup Hk) as (Hdb & Hregs).
  assert (∃ q, chooseQuery a = Some q) as [q Hq].
  { unfold chooseQuery. rewrite Hu. destruct Hrole as [-> | ->]; simpl; eauto. }
  apply isUserRegistered_true.
  exists u, (fromSnapshot (registrationId u eventId, toData (newRegistration u eventId now))).
  split; [done|]. split; [|done].
  rewrite Hregs, (snapshotOf_query a q _ Hq), Hdb.
  apply list_elem_of_fmap. eexists. split; [done|].
  apply list_elem_of_filter. split.
  - by destruct (chooseQuery_scope a u q Hu Hq) as [-> | ->].
  - apply elem_of_map_to_list, lookup_insert_eq.
Qed.

Lemma registered_after_register_witness :
  user organizer_org1 = Some (User.mk "org1" "organizer") ∧
  authLoading organizer_org1 = false ∧
  faults (initial sample_db []) = [] ∧
  alreadyRegistered "org1-e1" (registrations (initial sample_db [])) = false ∧
  validDocumentId "org1-e1" = true ∧
  isUserRegistered organizer_org1
    (registrations (final (registerForEvent organizer_org1 "e1" "t1" (initial sample_db []))))
    "e1" = true.
Proof.
  split; [reflexivity|]. split; [reflexivity|]. split; [reflexivity|].
  split; [reflexivity|]. split; [reflexivity|].
  exact (registered_after_register organizer_org1 (User.mk "org1" "organizer") "e1" "t1"
    (initial sample_db []) eq_refl eq_refl (or_intror eq_refl) eq_refl eq_refl eq_refl).
Defined.

(** ** Document keys *)


(** The hyphen is not escaped: two different pairs can share a key. *)
Example registrationId_collision :
  registrationId (User.mk "a-b" "student") "c" = registrationId (User.mk "a" "student") "b-c".
Proof. reflexivity. Qed.



(** ** The mount effect *)

(** X10. The effect that starts the first fetch does nothing while the
    identity is pending, so [loading] keeps its initial [true]; once the
    identity is resolved it runs [fetchRegistrations], after which
    [loading] is [false] and [registrations] is what the identity's query
    returns, or, when the read is rejected, what it was.  The effect's own
    guard repeats the one inside [fetchRegistrations]. *)
Theorem initialFetch_outcome (a : Auth) (s : Sys) :
  let r := initialFetch a s in
  r = fetchRegistrations a s ∧
  completion r = Normal () ∧
  (authLoading a = true → final r = s ∧ events r = []) ∧
  (authLoading a = false →
     loading (final r) = false ∧
     registrations (final r) =
       if rejected s && bool_decide (is_Some (chooseQuery a))
       then registrations s else snapshotOf a (db s)).
Proof.
  cbv zeta. unfold initialFetch.
  destruct (authLoading a) eqn:Hl; simpl.
  - rewrite (fetch_pending a s Hl). repeat split; done.
  - split; [done|].
    split; [by destruct (fetch_total a s) as (s' & evs & ->)|].
    split; [done|]. intros _.
    destruct (chooseQuery a) as [q|] eqn:Hq.
    + rewrite bool_decide_eq_true_2 by eauto. rewrite andb_true_r.
      destruct (rejected s) eqn:Hr.
      * by rewrite (fetch_failure a s q Hl Hq Hr).
      * rewrite (fetch_success a s q Hl Hq Hr). by rewrite (snapshotOf_query a q).
    + rewrite bool_decide_eq_false_2 by (by intros [? ?]). rewrite andb_false_r.
      rewrite (fetch_no_query a s Hl Hq). by rewrite (snapshotOf_none a).
Qed.

Lemma initialFetch_outcome_witness :
  authLoading pending = true ∧
  final (initialFetch pending (initial sample_db [])) = initial sample_db [] ∧
  authLoading organizer_org1 = false ∧
  loading (final (initialFetch organizer_org1 (initial sample_db [true]))) = false.
Proof.
  split; [reflexivity|].
  destruct (initialFetch_outcome pending (initial sample_db [])) as (_ & _ & Hp & _).
  split; [exact (proj1 (Hp eq_refl))|]. split; [reflexivity|].
  destruct (initialFetch_outcome organizer_org1 (initial sample_db [true]))
    as (_ & _ & _ & Hres).
  exact (proj1 (Hres eq_refl)).
Defined.


(** * The create-event page *)

(** ** The matcher decides the pattern's language *)

Lemma nullable_Matches r : CreateEvent.nullable r = true ↔ CreateEvent.Matches r [].
Proof.
  induction r as [| |lo hi|r1 IH1 r2 IH2|r1 IH1 r2 IH2]; simpl.
  - split; [done|]. inversion 1.
  - split; [constructor|done].
  - split; [done|]. inversion 1.
  - rewrite andb_true_iff, IH1, IH2. split.
    + intros [H1 H2]. exact (CreateEvent.MSeq r1 r2 [] [] H1 H2).
    + inversion 1 as [| |? ? s1 s2 H1 H2 [Hr1 Hr2] Hs| |]; subst.
      apply app_eq_nil in Hs as [-> ->]. done.
  - rewrite orb_true_iff, IH1, IH2. split.
    + intros [H|H]; [by apply CreateEvent.MAltL|by apply CreateEvent.MAltR].
    + inversion 1; subst; auto.
Qed.

Lemma deriv_Matches r c s :
  CreateEvent.Matches (CreateEvent.deriv c r) s ↔ CreateEvent.Matches r (c :: s).
Proof.
  revert s. induction r as [| |lo hi|r1 IH1 r2 IH2|r1 IH1 r2 IH2]; intros s; simpl.
  - split; inversion 1.
  - split; inversion 1.
  - destruct (lo <=? c)%N eqn:Hlo; destruct (c <=? hi)%N eqn:Hhi; simpl;
      try apply N.leb_le in Hlo; try apply N.leb_le in Hhi;
      try apply N.leb_gt in Hlo; try apply N.leb_gt in Hhi.
    + split; [inversion 1; by constructor|inversion 1; constructor].
    + split; [inversion 1|inversion 1; lia].
    + split; [inversion 1|inversion 1; lia].
    + split; [inversion 1|inversion 1; lia].
  - assert (CreateEvent.Matches (CreateEvent.Seq (CreateEvent.deriv c r1) r2) s ↔
            ∃ s1 s2, s = s1 ++ s2 ∧ CreateEvent.Matches r1 (c :: s1) ∧
                     CreateEvent.Matches r2 s2) as Hseq.
    { split.
      - inversion 1 as [| |? ? s1 s2 H1 H2| |]; subst.
        exists s1, s2. by rewrite <- IH1.
      - intros (s1 & s2 & -> & H1 & H2). constructor; [by apply IH1|done]. }
    assert (CreateEvent.Matches (CreateEvent.Seq r1 r2) (c :: s) ↔
            (CreateEvent.Matches r1 [] ∧ CreateEvent.Matches r2 (c :: s)) ∨
            ∃ s1 s2, s = s1 ++ s2 ∧ CreateEvent.Matches r1 (c :: s1) ∧
                     CreateEvent.Matches r2 s2) as Hcons.
    { split.
      - inversion 1 as [| |? ? s1 s2 H1 H2 [Hr1 Hr2] Hs| |]; subst.
        destruct s1 as [|c' s1]; simpl in Hs.
        + left. by subst.
        + injection Hs as -> <-. right. by exists s1, s2.
      - intros [[H1 H2]|(s1 & s2 & -> & H1 & H2)].
        + exact (CreateEvent.MSeq r1 r2 [] (c :: s) H1 H2).
        + exact (CreateEvent.MSeq r1 r2 (c :: s1) s2 H1 H2). }
    rewrite Hcons. destruct (CreateEvent.nullable r1) eqn:Hn.
    + apply nullable_Matches in Hn. split.
      * inversion 1; subst; [right; by apply Hseq|left; split; [done|by apply IH2]].
      * intros [[_ H2]|H]; [apply CreateEvent.MAltR; by apply IH2|].
        apply CreateEvent.MAltL. by apply Hseq.
    + rewrite Hseq. split; [by right|].
      intros [[H1 _]|H]; [|done].
      apply nullable_Matches in H1. congruence.
  - split.
    + inversion 1; subst; [apply CreateEvent.MAltL|apply CreateEvent.MAltR]; by
        (apply IH1 || apply IH2).
    + inversion 1; subst; [apply CreateEvent.MAltL|apply CreateEvent.MAltR]; by
        (apply IH1 || apply IH2).
Qed.

Lemma test_Matches r s : CreateEvent.test r s = true ↔ CreateEvent.Matches r s.
Proof.
  revert r. induction s as [|c s IH]; intros r; simpl.
  - apply nullable_Matches.
  - rewrite IH. apply deriv_Matches.
Qed.


(** ** The time pattern *)

Lemma digit_range (c lo hi : N) :
  (48 ≤ lo)%N → (hi ≤ 57)%N → (lo ≤ c)%N → (c ≤ hi)%N →
  ∃ d : nat, c = CreateEvent.digit d ∧ N.to_nat lo - 48 ≤ d ≤ N.to_nat hi - 48.
Proof.
  intros Hlo Hhi H1 H2. exists (N.to_nat c - 48).
  unfold CreateEvent.digit. lia.
Qed.

Lemma two_digits (a d : nat) :
  d < 10 → CreateEvent.two (10 * a + d) = [CreateEvent.digit a; CreateEvent.digit d].
Proof.
  intros Hd. unfold CreateEvent.two.
  assert ((10 * a + d) / 10 = a) as -> by (symmetry; apply (Nat.div_unique _ 10 a d); lia).
  assert ((10 * a + d) mod 10 = d) as -> by (symmetry; apply (Nat.mod_unique _ 10 a d); lia).
  done.
Qed.

Lemma clock_times_accepted :
  forallb (λ h, forallb (λ m,
    CreateEvent.test CreateEvent.timeRegex
      (CreateEvent.two h ++ CreateEvent.code ":" :: CreateEvent.two m) &&
    ((10 <=? h) ||
     CreateEvent.test CreateEvent.timeRegex
       (CreateEvent.digit h :: CreateEvent.code ":" :: CreateEvent.two m)))
    (seq 0 60)) (seq 0 24) = true.
Proof. by vm_compute. Qed.

Lemma Matches_time s :
  CreateEvent.Matches CreateEvent.timeRegex s → CreateEvent.isClockTime s.
Proof.
  intros H. vm_compute in H.
  inversion H as [| |? ? hs ms Hh Hm| |]; subst; clear H.
  inversion Hm as [| |? ? cs ms' Hc Hm'| |]; subst; clear Hm.
  inversion Hc as [|? ? colon Hc1 Hc2| | |]; subst; clear Hc.
  assert (colon = CreateEvent.code ":") as -> by (vm_compute; lia).
  inversion Hm' as [| |? ? m1s m2s Hm1 Hm2| |]; subst; clear Hm'.
  inversion Hm1 as [|? ? m1 Hm1a Hm1b| | |]; subst; clear Hm1.
  inversion Hm2 as [|? ? m2 Hm2a Hm2b| | |]; subst; clear Hm2.
  destruct (digit_range m1 48 53) as (dm1 & -> & Hdm1); [lia..|].
  destruct (digit_range m2 48 57) as (dm2 & -> & Hdm2); [lia..|].
  assert (CreateEvent.two (10 * dm1 + dm2)
          = [CreateEvent.digit dm1; CreateEvent.digit dm2]) as Hmin
    by (apply two_digits; lia).
  inversion Hh as [| | |? ? ? Hl|? ? ? Hr]; subst; clear Hh.
  - inversion Hl as [| |? ? os ds Ho Hd| |]; subst; clear Hl.
    inversion Hd as [|? ? d Hd1 Hd2| | |]; subst; clear Hd.
    destruct (digit_range d 48 57) as (dd & -> & Hdd); [lia..|].
    inversion Ho as [| | |? ? ? Ha|? ? ? He]; subst; clear Ho.
    + inversion Ha as [|? ? a Ha1 Ha2| | |]; subst; clear Ha.
      destruct (digit_range a 48 49) as (da & -> & Hda); [lia..|].
      exists (10 * da + dd), (10 * dm1 + dm2).
      split; [lia|]. split; [lia|]. left.
      rewrite Hmin, two_digits by lia. done.
    + inversion He; subst; clear He.
      exists dd, (10 * dm1 + dm2).
      split; [lia|]. split; [lia|]. right. split; [lia|].
      rewrite Hmin. done.
  - inversion Hr as [| |? ? ts bs Ht Hb| |]; subst; clear Hr.
    inversion Ht as [|? ? t Ht1 Ht2| | |]; subst; clear Ht.
    inversion Hb as [|? ? b Hb1 Hb2| | |]; subst; clear Hb.
    destruct (digit_range t 50 50) as (dt & -> & Hdt); [lia..|].
    destruct (digit_range b 48 51) as (db & -> & Hdb); [lia..|].
    exists (10 * dt + db), (10 * dm1 + dm2).
    split; [lia|]. split; [lia|]. left.
    rewrite Hmin, two_digits by lia. done.
Qed.

Lemma clock_time_test s :
  CreateEvent.isClockTime s → CreateEvent.test CreateEvent.timeRegex s = true.
Proof.
  intros (h & m & Hh & Hm & Hs).
  pose proof clock_times_accepted as Hall.
  rewrite forallb_forall in Hall.
  assert (In h (seq 0 24)) as Hin by (apply in_seq; lia).
  specialize (Hall h Hin). rewrite forallb_forall in Hall.
  assert (In m (seq 0 60)) as Hin' by (apply in_seq; lia).
  specialize (Hall m Hin'). apply andb_true_iff in Hall as [H2 H1].
  destruct Hs as [-> | [Hlt ->]]; [done|].
  apply orb_true_iff in H1 as [Hge|H1]; [|done].
  apply Nat.leb_le in Hge. lia.
Qed.

(** X11. The pattern of the [time] and [endTime] fields accepts exactly
    the clock times written [H:MM] or [HH:MM]: an hour from 0 to 23, with
    the leading zero optional below 10, a colon, and a two-digit minute
    from 00 to 59.  Nothing may precede or follow. *)
Theorem time_pattern_accepts_clock_times (s : CreateEvent.text) :
  CreateEvent.test CreateEvent.timeRegex s = true ↔
  ∃ h m : nat, h < 24 ∧ m < 60 ∧
    (s = CreateEvent.two h ++ CreateEvent.code ":" :: CreateEvent.two m ∨
     (h < 10 ∧ s = CreateEvent.digit h :: CreateEvent.code ":" :: CreateEvent.two m)).
Proof.
  split.
  - intros H. by apply Matches_time, test_Matches.
  - apply clock_time_test.
Qed.

Example time_pattern_examples :
  CreateEvent.test CreateEvent.timeRegex (CreateEvent.lit "7:05") = true ∧
  CreateEvent.test CreateEvent.timeRegex (CreateEvent.lit "23:59") = true ∧
  CreateEvent.test CreateEvent.timeRegex (CreateEvent.lit "24:00") = false ∧
  CreateEvent.test CreateEvent.timeRegex (CreateEvent.lit "12:60") = false ∧
  CreateEvent.test CreateEvent.timeRegex (CreateEvent.lit "12:5") = false ∧
  CreateEvent.test CreateEvent.timeRegex (CreateEvent.lit "012:30") = false ∧
  CreateEvent.test CreateEvent.timeRegex (CreateEvent.lit "") = false.
Proof. by vm_compute. Qed.


(** ** The form schema *)

Lemma minLength_None n msg v :
  CreateEvent.minLength n msg v = None ↔ n ≤ length v.
Proof.
  unfold CreateEvent.minLength. destruct (length v <? n) eqn:E.
  - apply Nat.ltb_lt in E. split; [done|lia].
  - apply Nat.ltb_ge in E. done.
Qed.

Lemma matchesRegex_None r msg v :
  CreateEvent.matchesRegex r msg v = None ↔ CreateEvent.test r v = true.
Proof. unfold CreateEvent.matchesRegex. by destruct (CreateEvent.test r v). Qed.

Lemma refine_None p msg v : CreateEvent.refine p msg v = None ↔ p v = true.
Proof. unfold CreateEvent.refine. by destruct (p v). Qed.

Lemma valid_fields dateParses v :
  CreateEvent.valid dateParses v = true ↔
  ∀ f, CreateEvent.fieldIssue dateParses v f = None.
Proof.
  unfold CreateEvent.valid. rewrite forallb_forall. split.
  - intros H f.
    assert (In f CreateEvent.allFields) as Hin by (destruct f; simpl; tauto).
    specialize (H f Hin). by apply bool_decide_eq_true in H.
  - intros H f _. by apply bool_decide_eq_true.
Qed.

Lemma valid_clock_times dateParses v :
  CreateEvent.valid dateParses v = true ↔
  3 ≤ length (CreateEvent.title v) ∧
  10 ≤ length (CreateEvent.description v) ∧
  dateParses (CreateEvent.date v) = true ∧
  CreateEvent.test CreateEvent.timeRegex (CreateEvent.time v) = true ∧
  CreateEvent.test CreateEvent.timeRegex (CreateEvent.endTime v) = true ∧
  3 ≤ length (CreateEvent.location v) ∧
  3 ≤ length (CreateEvent.category v).
Proof.
  rewrite valid_fields. split.
  - intros H.
    pose proof (H CreateEvent.Title) as H1. pose proof (H CreateEvent.Description) as H2.
    pose proof (H CreateEvent.Date) as H3. pose proof (H CreateEvent.Time) as H4.
    pose proof (H CreateEvent.EndTime) as H5. pose proof (H CreateEvent.Location) as H6.
    pose proof (H CreateEvent.Category) as H7. simpl in *.
    rewrite minLength_None in H1, H2, H6, H7.
    rewrite matchesRegex_None in H4, H5. rewrite refine_None in H3. done.
  - intros (H1 & H2 & H3 & H4 & H5 & H6 & H7) f. destruct f; simpl.
    + by apply minLength_None.
    + by apply minLength_None.
    + by apply refine_None.
    + by apply matchesRegex_None.
    + by apply matchesRegex_None.
    + by apply minLength_None.
    + by apply minLength_None.
Qed.

(** X12. [formSchema] accepts the values exactly when title, location
    and category have at least 3 code units, the description at least 10,
    the date parses, and both times are clock times.  Start and end are
    checked independently of each other: exchanging them never changes the
    verdict, so an end before the start is accepted.  The form's default
    values are rejected whatever [Date.parse] does. *)
Theorem formSchema_accepts
    (dateParses : CreateEvent.text → bool) (v : CreateEvent.FormValues) :
  (CreateEvent.valid dateParses v = true ↔
   3 ≤ length (CreateEvent.title v) ∧
   10 ≤ length (CreateEvent.description v) ∧
   dateParses (CreateEvent.date v) = true ∧
   CreateEvent.isClockTime (CreateEvent.time v) ∧
   CreateEvent.isClockTime (CreateEvent.endTime v) ∧
   3 ≤ length (CreateEvent.location v) ∧
   3 ≤ length (CreateEvent.category v))
  ∧ CreateEvent.valid dateParses (CreateEvent.swapTimes v) = CreateEvent.valid dateParses v
  ∧ CreateEvent.valid dateParses CreateEvent.defaultValues = false.
Proof.
  split; [|split].
  - rewrite valid_clock_times. split.
    + intros (H1 & H2 & H3 & H4 & H5 & H6 & H7).
      repeat split; try done; by apply Matches_time, test_Matches.
    + intros (H1 & H2 & H3 & H4 & H5 & H6 & H7).
      repeat split; try done; by apply clock_time_test.
  - apply eq_true_iff_eq. rewrite !valid_clock_times. simpl. tauto.
  - apply not_true_is_false. rewrite valid_clock_times. simpl. lia.
Qed.

Lemma formSchema_accepts_witness :
  let v := CreateEvent.mkForm (CreateEvent.lit "Gala") (CreateEvent.lit "An evening event")
             (CreateEvent.lit "2025-05-01") (CreateEvent.lit "19:30") (CreateEvent.lit "9:00")
             (CreateEvent.lit "Hall") (CreateEvent.lit "Social") in
  CreateEvent.valid (λ _, true) v = true ∧
  CreateEvent.isClockTime (CreateEvent.endTime v) ∧
  CreateEvent.valid (λ _, true) (CreateEvent.swapTimes v) = true.
Proof.
  cbv zeta.
  set (v := CreateEvent.mkForm (CreateEvent.lit "Gala") (CreateEvent.lit "An evening event")
             (CreateEvent.lit "2025-05-01") (CreateEvent.lit "19:30") (CreateEvent.lit "9:00")
             (CreateEvent.lit "Hall") (CreateEvent.lit "Social")).
  assert (CreateEvent.valid (λ _, true) v = true) as Hv by (by vm_compute).
  destruct (formSchema_accepts (λ _, true) v) as (Hiff & Hswap & _).
  split; [exact Hv|]. split.
  - apply Hiff in Hv. tauto.
  - by rewrite Hswap.
Defined.


(** ** Who sees the form *)

(** X13. The component renders the form exactly when the identity is
    resolved to an organizer and no redirect has been started; the submit
    button is then disabled exactly while a submission is in flight.  No
    other identity, and no pending one, is ever shown the form. *)
Theorem form_rendered_for_organizers_only
    (a : Auth) (p : CreateEvent.Page) (disabled : bool) :
  CreateEvent.render a p = CreateEvent.CreateForm disabled ↔
  authLoading a = false ∧ hasRole a "organizer" = true ∧
  CreateEvent.hasRedirected p = false ∧ disabled = CreateEvent.isSubmitting p.
Proof.
  unfold CreateEvent.render, hasRole.
  destruct (authLoading a); [split; [done|by intros (? & _)]|].
  destruct (user a) as [u|].
  - destruct (bool_decide (User.role u = "organizer")) eqn:Hrole;
      destruct (CreateEvent.hasRedirected p); simpl; split;
      try done; try (by intros (_ & ? & ? & _)).
    + intros [= <-]. done.
    + intros (_ & _ & _ & ->). done.
  - destruct (CreateEvent.hasRedirected p); simpl; split;
      try done; by intros (_ & ? & _).
Qed.

(** ** The access guard *)

Lemma guardEffect_cases a p :
  CreateEvent.guardEffect a p = (p, []) ∨
  (CreateEvent.hasRedirected p = false ∧ authLoading a = false ∧
   hasRole a "organizer" = false ∧
   ∃ heading body path,
     CreateEvent.guardEffect a p =
       (CreateEvent.mkPage (CreateEvent.isSubmitting p) (CreateEvent.eventBanner p) true
          (CreateEvent.form p),
        [CreateEvent.SetHasRedirected true;
         CreateEvent.Toast true heading body;
         CreateEvent.RouterPush path]) ∧
     path = if bool_decide (user a = None) then "/login" else "/").
Proof.
  unfold CreateEvent.guardEffect, hasRole.
  destruct (authLoading a); [by left|].
  destruct (CreateEvent.hasRedirected p); [by left|]. simpl.
  destruct (user a) as [u|].
  - destruct (bool_decide (User.role u = "organizer")); simpl; [by left|].
    right. repeat split; try done. eauto 10.
  - right. repeat split; try done. eauto 10.
Qed.

Lemma guardEffect_redirected a p :
  CreateEvent.hasRedirected p = true → CreateEvent.guardEffect a p = (p, []).
Proof.
  intros Hp. unfold CreateEvent.guardEffect. rewrite Hp.
  by rewrite orb_true_r.
Qed.

Lemma guardEffects_redirected renders p :
  CreateEvent.hasRedirected p = true → CreateEvent.guardEffects renders p = (p, []).
Proof.
  intros Hp. induction renders as [|a rest IH]; [done|].
  simpl. by rewrite (guardEffect_redirected a p Hp), IH.
Qed.

(** X14. Over any sequence of renders, with the identity changing in any
    way, the access guard navigates at most once.  Once it has, or once
    [hasRedirected] is set, it never acts again, [hasRedirected] stays
    set, and every later render shows the skeleton or the redirect notice,
    never the form, even for an organizer. *)
Theorem guard_redirects_at_most_once (renders : list Auth) (p : CreateEvent.Page) :
  let r := CreateEvent.guardEffects renders p in
  length (List.filter CreateEvent.isPush r.2) ≤ 1 ∧
  (CreateEvent.hasRedirected p = true → r = (p, [])) ∧
  (List.filter CreateEvent.isPush r.2 ≠ [] ∨ CreateEvent.hasRedirected p = true →
     CreateEvent.hasRedirected r.1 = true ∧
     ∀ a, CreateEvent.render a r.1 = CreateEvent.Skeleton ∨
          CreateEvent.render a r.1 = CreateEvent.Redirecting).
Proof.
  cbv zeta.
  assert (∀ q, CreateEvent.hasRedirected q = true →
            ∀ a, CreateEvent.render a q = CreateEvent.Skeleton ∨
                 CreateEvent.render a q = CreateEvent.Redirecting) as Hview.
  { intros q Hq a. unfold CreateEvent.render. rewrite Hq.
    destruct (authLoading a); [by left|]. right.
    destruct (user a) as [u|]; [|done]. simpl. by rewrite andb_false_r. }
  revert p. induction renders as [|a rest IH]; intros p.
  - simpl. split; [lia|]. split; [done|]. intros [?|Hp]; [done|]. auto.
  - simpl. destruct (guardEffect_cases a p) as [-> | (Hp & _ & _ & h & b & path & -> & _)].
    + destruct (IH p) as (Hle & Hstay & Hafter).
      destruct (CreateEvent.guardEffects rest p) as [p2 ev2]. simpl in *.
      split; [done|]. split; [|done].
      intros Hp. by rewrite (Hstay Hp).
    + rewrite guardEffects_redirected by done. simpl.
      split; [lia|]. split; [congruence|]. intros _. auto.
Qed.

Lemma guard_redirects_at_most_once_witness :
  let r := CreateEvent.guardEffects [pending; anonymous; student_u1; organizer_org1]
             CreateEvent.mounted in
  List.filter CreateEvent.isPush r.2 = [CreateEvent.RouterPush "/login"] ∧
  CreateEvent.render organizer_org1 r.1 = CreateEvent.Redirecting.
Proof.
  cbv zeta.
  assert (List.filter CreateEvent.isPush
            (CreateEvent.guardEffects [pending; anonymous; student_u1; organizer_org1]
               CreateEvent.mounted).2 = [CreateEvent.RouterPush "/login"]) as Hpush
    by (by vm_compute).
  split; [exact Hpush|].
  destruct (guard_redirects_at_most_once [pending; anonymous; student_u1; organizer_org1]
    CreateEvent.mounted) as (_ & _ & Hafter).
  destruct Hafter as (_ & Hview); [left; by rewrite Hpush|].
  destruct (Hview organizer_org1) as [H|H]; [discriminate H|exact H].
Defined.

(** X15. The access guard leaves a page that shows the form alone, sends
    an absent identity to [/login] and any non-organizer to [/], and once
    it has run for a render the two access notices are not shown for that
    identity: the view is the skeleton, the redirect notice or the form. *)
Theorem guard_settles_view (a : Auth) (p : CreateEvent.Page) :
  let r := CreateEvent.guardEffect a p in
  (∀ disabled, CreateEvent.render a p = CreateEvent.CreateForm disabled → r = (p, [])) ∧
  (List.filter CreateEvent.isPush r.2 =
     if authLoading a || CreateEvent.hasRedirected p || hasRole a "organizer" then []
     else if bool_decide (user a = None) then [CreateEvent.RouterPush "/login"]
     else [CreateEvent.RouterPush "/"]) ∧
  (CreateEvent.render a r.1 = CreateEvent.Skeleton ∨
   CreateEvent.render a r.1 = CreateEvent.Redirecting ∨
   CreateEvent.render a r.1 = CreateEvent.CreateForm (CreateEvent.isSubmitting p)).
Proof.
  cbv zeta. unfold CreateEvent.guardEffect, CreateEvent.render, hasRole.
  destruct (authLoading a); [by repeat split; auto|].
  destruct (user a) as [u|].
  - destruct (bool_decide (User.role u = "organizer")) eqn:Hrole;
      destruct (CreateEvent.hasRedirected p) eqn:Hp; simpl;
      rewrite ?Hrole, ?Hp; simpl; repeat split; auto; try done.
  - destruct (CreateEvent.hasRedirected p) eqn:Hp; simpl; rewrite ?Hp; simpl;
      repeat split; auto; try done.
Qed.

(** ** Submitting *)

(** X16. [onSubmit] calls [addEvent] exactly once, with the submitted
    values and the banner when one is set, and always ends with
    [isSubmitting] back to [false].  When [addEvent] resolves, the form is
    reset, the banner cleared and the last navigation is to [/]; when it
    rejects, the form values and the banner are kept, nothing navigates,
    and the error is logged and shown.  [hasRedirected] is never
    touched. *)
Theorem onSubmit_outcome
    (accepted : bool) (v : CreateEvent.FormValues) (p : CreateEvent.Page) :
  let r := CreateEvent.onSubmit accepted v p in
  List.filter CreateEvent.isAddEvent r.2 =
    [CreateEvent.AddEvent (CreateEvent.mkEventData v (CreateEvent.eventBanner p)) accepted] ∧
  head r.2 = Some (CreateEvent.SetIsSubmitting true) ∧
  last r.2 = Some (CreateEvent.SetIsSubmitting false) ∧
  CreateEvent.isSubmitting r.1 = false ∧
  CreateEvent.hasRedirected r.1 = CreateEvent.hasRedirected p ∧
  (accepted = true →
     CreateEvent.form r.1 = CreateEvent.defaultValues ∧
     CreateEvent.eventBanner r.1 = None ∧
     List.filter CreateEvent.isPush r.2 = [CreateEvent.RouterPush "/"]) ∧
  (accepted = false →
     CreateEvent.form r.1 = CreateEvent.form p ∧
     CreateEvent.eventBanner r.1 = CreateEvent.eventBanner p ∧
     List.filter CreateEvent.isPush r.2 = [] ∧
     CreateEvent.LogError "Error creating event:" ∈ r.2).
Proof.
  cbv zeta. destruct accepted; simpl; repeat split; try done.
  do 2 apply list_elem_of_further. apply list_elem_of_here.
Qed.

(** X17. Through [handleSubmit], [addEvent] is only ever called with
    values that [formSchema] accepts, so with clock times in both time
    fields; when the current values are rejected nothing happens: no
    event, no state change, no call. *)
Theorem handleSubmit_only_valid
    (dateParses : CreateEvent.text → bool) (accepted : bool) (p : CreateEvent.Page) :
  let r := CreateEvent.handleSubmit dateParses accepted p in
  (∀ data ok, CreateEvent.AddEvent data ok ∈ r.2 →
     CreateEvent.values data = CreateEvent.form p ∧
     CreateEvent.valid dateParses (CreateEvent.values data) = true ∧
     CreateEvent.isClockTime (CreateEvent.time (CreateEvent.values data)) ∧
     CreateEvent.isClockTime (CreateEvent.endTime (CreateEvent.values data))) ∧
  (CreateEvent.valid dateParses (CreateEvent.form p) = false → r = (p, [])) ∧
  (CreateEvent.valid dateParses (CreateEvent.form p) = true →
     r = CreateEvent.onSubmit accepted (CreateEvent.form p) p).
Proof.
  cbv zeta. unfold CreateEvent.handleSubmit.
  destruct (CreateEvent.valid dateParses (CreateEvent.form p)) eqn:Hv.
  - split; [|done]. intros data ok Hin.
    assert (data = CreateEvent.mkEventData (CreateEvent.form p) (CreateEvent.eventBanner p))
      as ->.
    { unfold CreateEvent.onSubmit in Hin. destruct accepted; simpl in Hin;
        repeat (apply elem_of_cons in Hin as [Hin|Hin]; [try discriminate Hin|]);
        try (by apply elem_of_nil in Hin); by injection Hin. }
    simpl. split; [done|]. split; [done|].
    apply valid_clock_times in Hv as (_ & _ & _ & Ht & He & _).
    split; by apply Matches_time, test_Matches.
  - split; [|done]. intros data ok Hin. by apply elem_of_nil in Hin.
Qed.
